(** * MCX gold scoring engine: indicators, composite score, ingestion

    Shallow embedding of [tools/indicators.js] (sma, ema, trueRange, atr14,
    zscore), of [tools/update_mcx.js] (clamp, computeScore, main) and of
    [tools/lib_mcx.js] (toNumber, parseCsvLoose, extractGoldRow,
    mapRowToBar).

    JavaScript numbers are abstracted by the interface [JsNumber], which
    lists the operators and [Math] functions the two files use.  The code is
    written once against that interface and run on two carriers:

    - [Binary64]: IEEE-754 binary64 through Rocq's primitive floats, which
      is what a JavaScript engine computes;
    - [Exact]: canonical rationals [Qc], the real-number reading of the
      specification (no rounding, no NaN), with [Math.sqrt] as a parameter.

    Theorems that do not depend on arithmetic facts hold for every carrier;
    those that need a few facts about literals and comparison hold for every
    [LawfulNumber], which both carriers are.  Every numbered property is
    proved for every carrier or on [Binary64]; the lemmas on [Exact] only
    record what the same code yields without rounding.                      *)

From Stdlib Require Import Ascii String ZArith QArith Qcanon Qround Qabs Floats.
From Stdlib Require Import Bool Lia Arith List Sorted Permutation.
Import ListNotations.

Set Implicit Arguments.
Close Scope Q_scope.
Open Scope nat_scope.
Set Warnings "-inexact-float".

(* ================================================================= *)
(** ** JavaScript numbers                                              *)

Declare Scope js_scope.
Delimit Scope js_scope with js.

Class JsNumber (N : Type) : Type := {
  ofZ    : Z -> N;            (* integer literal *)
  nan    : N;                 (* what [undefined] coerces to in arithmetic *)
  add    : N -> N -> N;       (* a + b *)
  sub    : N -> N -> N;       (* a - b *)
  mul    : N -> N -> N;       (* a * b *)
  div    : N -> N -> N;       (* a / b *)
  neg    : N -> N;            (* -a *)
  ltb    : N -> N -> bool;    (* a < b *)
  seqb   : N -> N -> bool;    (* a === b on two numbers *)
  truthy : N -> bool;         (* ToBoolean(a) *)
  abs    : N -> N;            (* Math.abs *)
  sqrt   : N -> N;            (* Math.sqrt *)
  sign   : N -> N;            (* Math.sign *)
  round  : N -> N;            (* Math.round *)
  max2   : N -> N -> N;       (* Math.max(a, b) *)
  min2   : N -> N -> N        (* Math.min(a, b) *)
}.

Infix "+" := add : js_scope.
Infix "-" := sub : js_scope.
Infix "*" := mul : js_scope.
Infix "/" := div : js_scope.
Notation "- x" := (neg x) : js_scope.
Infix "<?" := ltb (at level 70, no associativity) : js_scope.
Infix "===" := seqb (at level 70, no associativity) : js_scope.

(** Decimal literal [n/d] with [d] a power of ten, e.g. [0.25 = dec 25 100].
    On binary64 the correctly rounded quotient of two exactly representable
    integers is the double nearest to the decimal, i.e. the literal. *)
Definition dec {N} `{JsNumber N} (n d : Z) : N := (ofZ n / ofZ d)%js.

Definition ofNat {N} `{JsNumber N} (n : nat) : N := ofZ (Z.of_nat n).

(* ================================================================= *)
(** ** tools/indicators.js                                             *)

Section Indicators.
Context {N : Type} `{JsNumber N}.
Local Open Scope js_scope.

(** [xs.reduce((a, b) => a + b, 0)] *)
Definition sum (xs : list N) : N := fold_left add xs (ofZ 0).

(** [values[i]]; an index past the end reads [undefined]. *)
Definition at_index (values : list N) (i : nat) : N := nth i values nan.

(** [values.slice(values.length - period)], used after the length guard. *)
Definition slice_last (values : list N) (period : nat) : list N :=
  skipn (length values - period) values.

Definition sma (values : list N) (period : nat) : option N :=
  if (length values <? period)%nat then None
  else
    let slice := slice_last values period in
    Some (sum slice / ofNat period).

(** The [for (let i = period; i < values.length; i++)] loop of [ema]. *)
Definition ema_loop (values : list N) (k : N) (period : nat) (e0 : N) : N :=
  fold_left (fun e i => at_index values i * k + e * (ofZ 1 - k))
            (seq period (length values - period)) e0.

Definition ema (values : list N) (period : nat) : option N :=
  if (length values <? period)%nat then None
  else
    let k := ofZ 2 / (ofNat period + ofZ 1) in
    let e := sum (firstn period values) / ofNat period in
    Some (ema_loop values k period e).

(** [prevClose == null] holds for [null] and [undefined]: [None]. *)
Definition trueRange (prevClose : option N) (high low : N) : N :=
  match prevClose with
  | None => high - low
  | Some pc => max2 (max2 (high - low) (abs (high - pc))) (abs (low - pc))
  end.

(** The objects [{h, l, c}] handed to [atr14]. *)
Record HLC : Type := mkHLC { h_ : N; l_ : N; c_ : option N }.

(** First loop of [atr14]: [trs.push(trueRange(prevClose, b.h, b.l))]
    for [i = 0 .. bars.length - 1], with [prevClose = bars[i-1].c]. *)
Definition atr_trs (bars : list HLC) : list N :=
  fold_left
    (fun trs i =>
       match nth_error bars i with
       | Some b =>
           let prevClose :=
             if (i =? 0)%nat then None
             else match nth_error bars (i - 1) with
                  | Some p => c_ p
                  | None => None
                  end in
           trs ++ [trueRange prevClose (h_ b) (l_ b)]
       | None => trs
       end)
    (seq 0 (length bars)) [].

(** Second loop of [atr14]: Wilder's smoothing. *)
Definition atr_loop (trs : list N) (period : nat) (atr0 : N) : N :=
  fold_left
    (fun atr i => (atr * (ofNat period - ofZ 1) + at_index trs i) / ofNat period)
    (seq period (length trs - period)) atr0.

Definition atr14 (bars : list HLC) : option N :=
  let period := 14%nat in
  if (length bars <? period + 1)%nat then None
  else
    let trs := atr_trs bars in
    let atr := sum (firstn period trs) / ofNat period in
    Some (atr_loop trs period atr).

(** [slice.reduce((a, b) => a + (b - mean) * (b - mean), 0) / lookback] *)
Definition variance (slice : list N) (mean : N) (lookback : nat) : N :=
  fold_left (fun a b => a + (b - mean) * (b - mean)) slice (ofZ 0)
  / ofNat lookback.

Definition zscore (values : list N) (lookback : nat) : option N :=
  if (length values <? lookback)%nat then None
  else
    let slice := slice_last values lookback in
    let mean := sum slice / ofNat lookback in
    let varr := variance slice mean lookback in
    let sd := sqrt varr in
    if sd === ofZ 0 then Some (ofZ 0)
    else Some ((at_index values (length values - 1) - mean) / sd).

End Indicators.

Arguments HLC N : clear implicits.

(* ================================================================= *)
(** ** tools/update_mcx.js: the scoring engine                         *)

Inductive Verdict : Type := BUY | SELL | HOLD.

Section Scoring.
Context {N : Type} `{JsNumber N}.
Local Open Scope js_scope.

(** One line of the history log, as an object.  [o], [h], [l] are numbers
    ([main] refuses a row whose OHLC is not numeric, and [computeScore]
    uses [h] and [l] unguarded); every field [computeScore] guards with
    [typeof n === "number"] or a truthiness test is optional, [None]
    standing for [null], [undefined] and an absent key.  [vol] and [oi]
    are the keys [computeScore] reads; [volume] and [open_interest] are the
    keys [main] writes. *)
Record Bar : Type := mkBar {
  date : string;
  exchange : string;
  instrument : string;
  expiry : option string;
  o : N; h : N; l : N;
  c : option N;
  prev_close : option N;
  volume : option N;
  value : option N;
  open_interest : option N;
  updated : string;
  source : string;
  vol : option N;
  oi : option N
}.

(** The [signals] object of a full evaluation. *)
Record SignalBundle : Type := mkSignals {
  ret_1d : N;
  ret_5d : N;
  ema20 : option N;
  ema50 : option N;
  ema_spread : N;
  sig_atr14 : option N;
  atr_pct : N;
  vol_z60 : N;
  oi_z60 : N;
  trend : N;
  momentum : N;
  participation : N
}.

Inductive Signals : Type :=
| Reason (reason : string)
| Bundle (b : SignalBundle).

Record Score : Type := mkScore {
  score : N;
  verdict : Verdict;
  confidence : N;
  signals : Signals
}.

Definition clamp (x a b : N) : N := max2 a (min2 b x).

(** [xs.filter(n => typeof n === "number")] *)
Fixpoint numbers (xs : list (option N)) : list N :=
  match xs with
  | [] => []
  | Some n :: r => n :: numbers r
  | None :: r => numbers r
  end.

(** [history[i]?.c] *)
Definition close_at (history : list Bar) (i : nat) : option N :=
  match nth_error history i with
  | Some x => c x
  | None => None
  end.

(** [(base && cur) ? (cur / base - 1) : 0] *)
Definition ret_over (base cur : option N) : N :=
  match base, cur with
  | Some b, Some x => if truthy b && truthy x then x / b - ofZ 1 else ofZ 0
  | _, _ => ofZ 0
  end.

(** [Math.sign(a) === Math.sign(b) ? 1 : 0] *)
Definition aligned1 (a b : N) : N :=
  if sign a === sign b then ofZ 1 else ofZ 0.

Definition verdict_of (score : N) : Verdict :=
  if dec 25 100 <? score then BUY
  else if score <? - dec 25 100 then SELL
  else HOLD.

Definition computeScore (history : list Bar) : Score :=
  if (length history <? 60)%nat then
    {| score := ofZ 0;
       verdict := HOLD;
       confidence := ofZ 0;
       signals := Reason "need >= 60 days history" |}
  else
    let closes := numbers (map c history) in
    let vols := numbers (map vol history) in
    let ois := numbers (map oi history) in

    let last := close_at history (length history - 1) in
    let prev := close_at history (length history - 2) in

    let ret1d := ret_over prev last in

    let idx5 := (length history - 6)%nat in
    let base5 := close_at history idx5 in
    let ret5d := ret_over base5 last in

    let ema20 := ema closes 20 in
    let ema50 := ema closes 50 in
    let emaSpread :=
      match ema20, ema50 with
      | Some e20, Some e50 =>
          if negb (e50 === ofZ 0) then e20 / e50 - ofZ 1 else ofZ 0
      | _, _ => ofZ 0
      end in

    let atr := atr14 (map (fun x => mkHLC (h x) (l x) (c x)) history) in
    let volZ := match zscore vols 60 with Some z => z | None => ofZ 0 end in
    let oiZ := match zscore ois 60 with Some z => z | None => ofZ 0 end in

    let trend := clamp (emaSpread * ofZ 10) (- ofZ 1) (ofZ 1) in
    let mom := clamp (ret5d * ofZ 8 + ret1d * ofZ 3) (- ofZ 1) (ofZ 1) in
    let participation := clamp (oiZ / ofZ 3 + volZ / ofZ 3) (- ofZ 1) (ofZ 1) in

    let atrPct :=
      match atr, last with
      | Some a, Some lc => if truthy lc then a / lc else ofZ 0
      | _, _ => ofZ 0
      end in
    let riskPenalty :=
      clamp ((atrPct - dec 1 100) * ofZ 20) (ofZ 0) (dec 6 10) in

    let score :=
      clamp (dec 5 10 * trend + dec 3 10 * mom + dec 2 10 * participation)
            (- ofZ 1) (ofZ 1) in

    let verdict := verdict_of score in

    let aligned :=
      [ aligned1 trend score; aligned1 mom score; aligned1 participation score ] in
    let agreement := sum aligned / ofNat (length aligned) in

    let dataQuality := ofZ 1 in
    let rawConf :=
      dec 55 100 * abs score + dec 25 100 * agreement + dec 20 100 * dataQuality in
    let confidence :=
      round (ofZ 100 * clamp (rawConf * (ofZ 1 - riskPenalty)) (ofZ 0) (ofZ 1)) in

    {| score := score;
       verdict := verdict;
       confidence := confidence;
       signals := Bundle {|
         ret_1d := ret1d;
         ret_5d := ret5d;
         ema20 := ema20;
         ema50 := ema50;
         ema_spread := emaSpread;
         sig_atr14 := atr;
         atr_pct := atrPct;
         vol_z60 := volZ;
         oi_z60 := oiZ;
         trend := trend;
         momentum := mom;
         participation := participation |} |}.

End Scoring.

Arguments Bar N : clear implicits.
Arguments SignalBundle N : clear implicits.
Arguments Signals N : clear implicits.
Arguments Score N : clear implicits.

(* ================================================================= *)
(** ** tools/update_mcx.js: the ingestion run                          *)

(** A string is truthy when it is present and not empty. *)
Definition truthy_str (s : option string) : bool :=
  match s with
  | Some x => negb (x =? "")%string
  | None => false
  end.

Section Ingestion.
Context {N : Type} `{JsNumber N}.

(** [String.prototype.localeCompare] is a built-in of the host; the run is
    parameterised by it ([Lt] for a negative result, [Gt] for a positive
    one). *)
Variable localeCompare : string -> string -> comparison.

(** What [mapRowToBar] returns: every number went through [toNumber],
    which yields a finite number or [null]. *)
Record ParsedBar : Type := mkParsed {
  p_symbol : string;
  p_expiry : option string;
  p_o : option N; p_h : option N; p_l : option N; p_c : option N;
  p_pc : option N; p_vol : option N; p_val : option N; p_oi : option N
}.

(** The [latestJson] object. *)
Record Snapshot : Type := mkSnapshot {
  s_date : string;
  s_exchange : string;
  s_instrument : string;
  s_expiry : option string;
  s_ohlc : N * N * N * option N;
  s_prev_close : option N;
  s_volume : option N;
  s_value : option N;
  s_open_interest : option N;
  s_signals : Signals N;
  s_score : N;
  s_verdict : Verdict;
  s_confidence : N;
  s_updated : string;
  s_source : string
}.

(** The two persisted artifacts: the lines of [mcx_gold_history.jsonl]
    (a missing file reads as no line) and [mcx_gold_latest.json]. *)
Record Store : Type := mkStore {
  history_file : list (Bar N);
  latest_file : option Snapshot
}.

(** Everything one run reads from outside the store: the command line, the
    clock at its three reads, and the outcome of reading, parsing and
    mapping the bhavcopy ([None]: no GOLD row). *)
Record Run : Type := mkRun {
  arg_file : option string;
  arg_url : option string;
  arg_date : option string;
  today : string;
  gold_bar : option ParsedBar;
  now_record : string;
  now_latest : string
}.

Inductive Outcome : Type :=
| Exit (code : nat)
| Saved (st : Store) (history : list (Bar N))
| TypeError.

(** [JSON.stringify] followed by [JSON.parse] is taken as the identity on
    records: it is on strings, [null] and finite numbers (bar [-0], which
    comes back as [0]). *)
Definition loadHistory (st : Store) : list (Bar N) := history_file st.

Definition appendHistory (record : Bar N) (st : Store) : Store :=
  {| history_file := history_file st ++ [record];
     latest_file := latest_file st |}.

Definition saveLatest (record : Snapshot) (st : Store) : Store :=
  {| history_file := history_file st;
     latest_file := Some record |}.

(** [history.sort((a, b) => String(a.date).localeCompare(String(b.date)))]:
    a stable sort. *)
Fixpoint insert_by_date (x : Bar N) (xs : list (Bar N)) : list (Bar N) :=
  match xs with
  | [] => [x]
  | y :: r =>
      match localeCompare (date x) (date y) with
      | Gt => y :: insert_by_date x r
      | _ => x :: y :: r
      end
  end.

Fixpoint sort_by_date (xs : list (Bar N)) : list (Bar N) :=
  match xs with
  | [] => []
  | x :: r => insert_by_date x (sort_by_date r)
  end.

(** [getArg("--date") || new Date().toISOString().slice(0, 10)] *)
Definition run_date (run : Run) : string :=
  match arg_date run with
  | Some d => if truthy_str (Some d) then d else today run
  | None => today run
  end.

(** The [record] object appended to the history log. *)
Definition record (run : Run) (bar : ParsedBar) (bo bh bl bc : N) : Bar N :=
  {| date := run_date run;
     exchange := "MCX";
     instrument := "GOLD";
     expiry := if truthy_str (p_expiry bar) then p_expiry bar else None;
     o := bo; h := bh; l := bl; c := Some bc;
     prev_close := p_pc bar;
     volume := p_vol bar;
     value := p_val bar;
     open_interest := p_oi bar;
     updated := now_record run;
     source := if truthy_str (arg_file run) then "MCX_BHAVCOPY_FILE"
               else "MCX_BHAVCOPY_URL";
     vol := None;
     oi := None |}.

(** The [latestJson] object written to the latest snapshot. *)
Definition latestJson (latest : Bar N) (calc : Score N) (stamp : string) : Snapshot :=
  {| s_date := date latest;
     s_exchange := exchange latest;
     s_instrument := instrument latest;
     s_expiry := expiry latest;
     s_ohlc := (o latest, h latest, l latest, c latest);
     s_prev_close := prev_close latest;
     s_volume := volume latest;
     s_value := value latest;
     s_open_interest := open_interest latest;
     s_signals := signals calc;
     s_score := score calc;
     s_verdict := verdict calc;
     s_confidence := confidence calc;
     s_updated := stamp;
     s_source := "MCX_BHAVCOPY" |}.

(** [history.some(x => x.date === date)] *)
Definition has_date (d : string) (history : list (Bar N)) : bool :=
  existsb (fun x => (date x =? d)%string) history.

(** Scoring and saving, once the in-memory history is settled. *)
Definition score_and_save (run : Run) (st : Store) (history : list (Bar N)) : Outcome :=
  let sorted := sort_by_date history in
  let calc := computeScore sorted in
  match nth_error sorted (length sorted - 1) with
  | None => TypeError
  | Some latest =>
      Saved (saveLatest (latestJson latest calc (now_latest run)) st) sorted
  end.

Definition main (run : Run) (st : Store) : Outcome :=
  let file := arg_file run in
  let url := arg_url run in
  let date_ := run_date run in
  if negb (truthy_str file) && negb (truthy_str url) then Exit 1
  else
    match gold_bar run with
    | None => Exit 2
    | Some bar =>
        match p_o bar, p_h bar, p_l bar, p_c bar with
        | Some bo, Some bh, Some bl, Some bc =>
            let history := loadHistory st in
            let exists_ := has_date date_ history in
            if negb exists_ then
              let rec := record run bar bo bh bl bc in
              score_and_save run (appendHistory rec st) (history ++ [rec])
            else
              score_and_save run st history
        | _, _, _, _ => Exit 3
        end
    end.

(** Number of records of a history that carry a given date. *)
Definition count_date (d : string) (history : list (Bar N)) : nat :=
  length (filter (fun x => (date x =? d)%string) history).

(** A run that passes the three early exits of [main]: an input is named,
    a GOLD row was found, and its OHLC is numeric. *)
Definition accepted (run : Run) : bool :=
  (truthy_str (arg_file run) || truthy_str (arg_url run))
  && match gold_bar run with
     | Some bar =>
         match p_o bar, p_h bar, p_l bar, p_c bar with
         | Some _, Some _, Some _, Some _ => true
         | _, _, _, _ => false
         end
     | None => false
     end.

(** A snapshot with its [updated] stamp replaced. *)
Definition restamp (stamp : string) (s : Snapshot) : Snapshot :=
  {| s_date := s_date s;
     s_exchange := s_exchange s;
     s_instrument := s_instrument s;
     s_expiry := s_expiry s;
     s_ohlc := s_ohlc s;
     s_prev_close := s_prev_close s;
     s_volume := s_volume s;
     s_value := s_value s;
     s_open_interest := s_open_interest s;
     s_signals := s_signals s;
     s_score := s_score s;
     s_verdict := s_verdict s;
     s_confidence := s_confidence s;
     s_updated := stamp;
     s_source := s_source s |}.

End Ingestion.

Arguments ParsedBar N : clear implicits.
Arguments Snapshot N : clear implicits.
Arguments Store N : clear implicits.
Arguments Run N : clear implicits.
Arguments Outcome N : clear implicits.

(* ================================================================= *)
(** ** Carrier 1: IEEE-754 binary64                                    *)

Module Binary64.
Local Open Scope float_scope.

(** Correctly rounded conversion of an integer literal. *)
Definition ofZ (z : Z) : float :=
  SF2Prim (binary_normalize prec emax z 0 false).

Definition truthy (x : float) : bool := negb (is_zero x || is_nan x).

Definition sign (x : float) : float :=
  if is_nan x then PrimFloat.nan
  else if 0 <? x then 1
  else if x <? 0 then -1
  else x.

(** [Math.max]: NaN if an argument is NaN, and [+0] above [-0]. *)
Definition max2 (a b : float) : float :=
  if is_nan a || is_nan b then PrimFloat.nan
  else if a <? b then b
  else if b <? a then a
  else if get_sign a then b else a.

(** [Math.min]: NaN if an argument is NaN, and [-0] below [+0]. *)
Definition min2 (a b : float) : float :=
  if is_nan a || is_nan b then PrimFloat.nan
  else if a <? b then a
  else if b <? a then b
  else if get_sign a then a else b.

Definition two52 : float := 4503599627370496.

(** Largest integer not above [x], for [|x| < 2^52]: adding and removing
    [2^52] rounds to an integer, which is then corrected downwards. *)
Definition floor (x : float) : float :=
  let r := if 0 <=? x then (x + two52) - two52 else (x - two52) + two52 in
  if x <? r then r - 1 else r.

(** [Math.round]: nearest integer, ties towards [+Infinity]; the sign of a
    zero result is the sign of the argument. *)
Definition round (x : float) : float :=
  if is_nan x || (two52 <=? PrimFloat.abs x) then x
  else
    let f := floor x in
    let r := if (x - f) <? 0.5 then f else f + 1 in
    if is_zero r then (if get_sign x then -0 else 0) else r.

#[global] Instance number : JsNumber float :=
  Build_JsNumber
    ofZ               (* ofZ *)
    PrimFloat.nan     (* nan *)
    PrimFloat.add     (* add *)
    PrimFloat.sub     (* sub *)
    PrimFloat.mul     (* mul *)
    PrimFloat.div     (* div *)
    PrimFloat.opp     (* neg *)
    PrimFloat.ltb     (* ltb *)
    PrimFloat.eqb     (* seqb *)
    truthy            (* truthy *)
    PrimFloat.abs     (* abs *)
    PrimFloat.sqrt    (* sqrt *)
    sign              (* sign *)
    round             (* round *)
    max2              (* max2 *)
    min2              (* min2 *).
End Binary64.

(* ================================================================= *)
(** ** Carrier 2: exact rationals                                      *)

Module Exact.
Local Open Scope Qc_scope.

Definition ofZ (z : Z) : Qc := Q2Qc (inject_Z z).

Definition ltb (x y : Qc) : bool :=
  match x ?= y with Lt => true | _ => false end.

Definition truthy (x : Qc) : bool := negb (Qc_eq_bool x 0).

Definition abs (x : Qc) : Qc := if ltb x 0 then - x else x.

Definition sign (x : Qc) : Qc :=
  if ltb 0 x then 1 else if ltb x 0 then - (1) else 0.

Definition round (x : Qc) : Qc := ofZ (Qfloor (x + Q2Qc (1 # 2))).

Definition max2 (a b : Qc) : Qc := if ltb a b then b else a.
Definition min2 (a b : Qc) : Qc := if ltb a b then a else b.

(** [Math.sqrt] has no rational counterpart; the carrier takes the root
    function as a parameter.  The theorems below only ask that it sends
    [0] to [0]. *)
Definition number (sqrtQc : Qc -> Qc) : JsNumber Qc :=
  Build_JsNumber
    ofZ               (* ofZ *)
    0                 (* nan: the carrier has none *)
    Qcplus            (* add *)
    Qcminus           (* sub *)
    Qcmult            (* mul *)
    Qcdiv             (* div: x / 0 = 0, never reached by the guarded code *)
    Qcopp             (* neg *)
    ltb               (* ltb *)
    Qc_eq_bool        (* seqb *)
    truthy            (* truthy *)
    abs               (* abs *)
    sqrtQc            (* sqrt *)
    sign              (* sign *)
    round             (* round *)
    max2              (* max2 *)
    min2              (* min2 *).

(** A computable root: exact on squares of rationals, rounded down to a
    multiple of [1/den] elsewhere; it vanishes at [0] only. *)
Definition sqrt_floor (x : Qc) : Qc :=
  Q2Qc (Z.sqrt (Qnum x * Zpos (Qden x)) # Qden x).
End Exact.

(* ================================================================= *)
(** ** The indicators as the specification words them                  *)

Section Reference.
Context {N : Type} `{JsNumber N}.
Local Open Scope js_scope.

(** The definitions of this section are written from the words of the
    specification and use none of the functions embedded above. *)

(** The simple mean of the first [n] elements: their sum, taken from [0]
    in order, over [n]. *)
Definition mean_of_first (n : nat) (xs : list N) : N :=
  fold_left (fun a b => a + b) (firstn n xs) (ofZ 0) / ofZ (Z.of_nat n).

(** Seed with the simple moving average of the first [period] elements,
    then blend forward through the remainder:
    [e_i = value_i * k + e_(i-1) * (1 - k)], [k = 2 / (period + 1)];
    unavailable when fewer than [period] values exist. *)
Definition ema_spec (values : list N) (period : nat) : option N :=
  let k := ofZ 2 / (ofZ (Z.of_nat period) + ofZ 1) in
  if (length values <? period)%nat then None
  else
    Some (fold_left (fun e v => v * k + e * (ofZ 1 - k))
                    (skipn period values) (mean_of_first period values)).

(** True range: [max(high - low, |high - previousClose|,
    |low - previousClose|)]; when the previous close is absent it is
    [high - low]. *)
Definition true_range_spec (previousClose : option N) (high low : N) : N :=
  match previousClose with
  | Some pc => max2 (max2 (high - low) (abs (high - pc))) (abs (low - pc))
  | None => high - low
  end.

(** True range of every bar, the previous bar's close as reference; the
    first bar has no reference. *)
Fixpoint true_ranges_spec (previousClose : option N) (bars : list (HLC N))
  : list N :=
  match bars with
  | [] => []
  | b :: r =>
      true_range_spec previousClose (h_ b) (l_ b) :: true_ranges_spec (c_ b) r
  end.

(** The first loop of [atr14] as a recursion over the bars, still calling
    the embedded [trueRange]. *)
Fixpoint true_ranges (prevClose : option N) (bars : list (HLC N)) : list N :=
  match bars with
  | [] => []
  | b :: r => trueRange prevClose (h_ b) (l_ b) :: true_ranges (c_ b) r
  end.

(** Seed with the simple mean of the first 14 true ranges, then
    [atr = (atr * 13 + tr) / 14] for each later one; unavailable below
    15 bars. *)
Definition atr14_spec (bars : list (HLC N)) : option N :=
  if (length bars <? 15)%nat then None
  else
    let trs := true_ranges_spec None bars in
    Some (fold_left (fun atr tr => (atr * ofZ 13 + tr) / ofZ 14)
                    (skipn 14 trs) (mean_of_first 14 trs)).

(** The close the [i]-th iteration of the first loop of [atr14] compares
    with. *)
Definition prev_close_at (bars : list (HLC N)) (i : nat) : option N :=
  if (i =? 0)%nat then None
  else match nth_error bars (i - 1) with
       | Some p => c_ p
       | None => None
       end.

(** Two bars that agree on date, close, volume and open interest (the keys
    [computeScore] reads); their highs and lows are free. *)
Definition same_but_high_low (a b : Bar N) : Prop :=
  date a = date b /\ c a = c b /\ vol a = vol b /\ oi a = oi b.

End Reference.

(** The facts about literals, comparison and [Math.sqrt] that the proofs
    below rely on; both carriers have them. *)
Class LawfulNumber (N : Type) {JN : JsNumber N} : Prop := {
  period_minus_1 : (ofZ 14 - ofZ 1)%js = ofZ 13;
  ltb_irrefl : forall x : N, (x <? x)%js = false;
  quarter_apart :
    forall s : N, (dec 25 100 <? s)%js = true -> (s <? - dec 25 100)%js = false;
  quarter_above : (dec 25 100 <? - dec 25 100)%js = false;
  sqrt_zero :
    forall x : N, (x === ofZ 0)%js = true -> (sqrt x === ofZ 0)%js = true
}.

Arguments LawfulNumber N {JN}.

(* ================================================================= *)
(** ** Scenario inputs                                                 *)

Section Scenarios.
Context {N : Type} `{JsNumber N}.
Local Open Scope js_scope.

(** A bar with [high = low = close = open = price]. *)
Definition plain_bar (day : string) (price : N) (v w : option N) : Bar N :=
  {| date := day; exchange := "MCX"; instrument := "GOLD"; expiry := None;
     o := price; h := price; l := price; c := Some price;
     prev_close := None; volume := v; value := None; open_interest := w;
     updated := ""; source := "MCX_BHAVCOPY_FILE";
     vol := v; oi := w |}.

(** Two-digit day labels ["D00" .. "D59"], ascending. *)
Definition day_label (i : nat) : string :=
  String "D"%char (String (Ascii.ascii_of_nat (48 + i / 10))
             (String (Ascii.ascii_of_nat (48 + i mod 10)) EmptyString)).

(** Close of day [i] on the line from 2000 (day 0) to 2100 (day 59). *)
Definition rising_close (i : nat) : N :=
  ofZ 2000 + (ofZ 100 * ofNat i) / ofZ 59.

(** Sixty ascending bars, closes rising linearly from 2000 to 2100, flat
    volume [v] and open interest [w]. *)
Definition rising_history (v w : option N) : list (Bar N) :=
  map (fun i => plain_bar (day_label i) (rising_close i) v w) (seq 0 60).

(** [n] bars with the same price, volume and open interest. *)
Definition flat_history (n : nat) (price : N) (v w : option N) : list (Bar N) :=
  map (fun i => plain_bar (day_label i) price v w) (seq 0 n).

(** The same bar with its range widened by [d] on both sides. *)
Definition widen (d : N) (b : Bar N) : Bar N :=
  {| date := date b; exchange := exchange b; instrument := instrument b;
     expiry := expiry b;
     o := o b; h := h b + d; l := l b - d; c := c b;
     prev_close := prev_close b; volume := volume b; value := value b;
     open_interest := open_interest b;
     updated := updated b; source := source b;
     vol := vol b; oi := oi b |}.

End Scenarios.

(** Concrete inputs on binary64. *)
Module Sample.
Local Open Scope float_scope.

(** The rising series with volume 1000 and open interest 500. *)
Definition rising : list (Bar float) :=
  rising_history (Some 1000) (Some 500).

(** The rising series, every bar 50 wider on each side. *)
Definition rising_wide : list (Bar float) := map (widen 50) rising.

(** Sixty bars at one price, volume 1000, open interest 500. *)
Definition flat (price : float) : list (Bar float) :=
  flat_history 60 price (Some 1000) (Some 500).

(** Twenty bars for [atr14]: high [i + 5], low [i], close [i + 2]. *)
Definition ranges : list (HLC float) :=
  map (fun i => mkHLC (Binary64.ofZ (Z.of_nat i) + 5)
                      (Binary64.ofZ (Z.of_nat i))
                      (Some (Binary64.ofZ (Z.of_nat i) + 2)))
      (seq 0 20).

Definition gold_row : ParsedBar float :=
  {| p_symbol := "GOLD"; p_expiry := Some "2026-04-03"%string;
     p_o := Some 2000; p_h := Some 2010; p_l := Some 1990; p_c := Some 2005;
     p_pc := Some 1998; p_vol := Some 1000; p_val := None; p_oi := Some 500 |}.

(** [node tools/update_mcx.js --file bhav.csv --date 2026-02-18], at noon
    and one hour later. *)
Definition run_noon : Run float :=
  {| arg_file := Some "bhav.csv"%string; arg_url := None;
     arg_date := Some "2026-02-18"%string; today := "2026-02-18";
     gold_bar := Some gold_row;
     now_record := "2026-02-18T12:00:00.000Z";
     now_latest := "2026-02-18T12:00:00.005Z" |}.

Definition run_later : Run float :=
  {| arg_file := Some "bhav.csv"%string; arg_url := None;
     arg_date := Some "2026-02-18"%string; today := "2026-02-18";
     gold_bar := Some gold_row;
     now_record := "2026-02-18T13:00:00.000Z";
     now_latest := "2026-02-18T13:00:00.005Z" |}.

Definition empty_store : Store float :=
  {| history_file := []; latest_file := None |}.

(** Five values whose first three average 2 and whose last three
    average 11. *)
Definition seeds : list float := [1; 2; 3; 10; 20].

(** Sixteen bars that gap.  The first spans 0 to 11; each of the next
    fourteen opens 9 above the previous close and spans 2 (true range 11,
    set by the high); the last falls 23 below the previous close (true
    range 25, set by the low). *)
Definition gapped : list (HLC float) :=
  mkHLC 11 0 (Some 1)
  :: map (fun i => mkHLC (Binary64.ofZ (10 * Z.of_nat i + 2))
                         (Binary64.ofZ (10 * Z.of_nat i))
                         (Some (Binary64.ofZ (10 * Z.of_nat i + 1))))
         (seq 1 14)
  ++ [mkHLC 118 116 (Some 117)].

(** Sixty bars at 2000 whose last close reads 0, as an empty CLOSE cell
    does. *)
Definition zero_close : list (Bar float) :=
  flat_history 59 2000 None None ++ [plain_bar "D59" 0 None None].
End Sample.

(* ================================================================= *)
(** ** Order on numbers                                                *)

Section NumberOrder.
Context {N : Type} `{JsNumber N}.
Local Open Scope js_scope.

(** [x] is not NaN: [x === x]. *)
Definition is_num (x : N) : bool := x === x.

(** [x <= y] on numbers. *)
Definition le_num (x y : N) : bool := (x <? y) || (x === y).

Definition in_range (lo hi x : N) : bool := le_num lo x && le_num x hi.

End NumberOrder.


(** What the bounds of the engine rest on: [clamp] lands between its
    bounds unless it yields NaN, NaN compares with nothing, and the bounds
    the engine uses are ordered; both carriers have these. *)
Class OrderedNumber (N : Type) {JN : JsNumber N} : Prop := {
  clamp_in_range :
    forall x a b : N,
      le_num a b = true -> is_num (clamp x a b) = true ->
      in_range a b (clamp x a b) = true;
  nan_unordered :
    forall s a : N, is_num s = false -> (a <? s)%js = false /\ (s <? a)%js = false;
  bounds_score : le_num (- ofZ 1)%js (ofZ 1 : N) = true;
  zero_in_bounds : in_range (- ofZ 1)%js (ofZ 1) (ofZ 0 : N) = true;
  no_participation :
    clamp (ofZ 0 / ofZ 3 + ofZ 0 / ofZ 3)%js (- ofZ 1)%js (ofZ 1) = (ofZ 0 : N)
}.

Arguments OrderedNumber N {JN}.

Section ComparatorLaws.

(** A comparator that orders its arguments consistently: swapping them
    swaps the answer, and "not after" is transitive. *)
Definition consistent_comparator (cmp : string -> string -> comparison) : Prop :=
  (forall a b, cmp b a = CompOpp (cmp a b))
  /\ (forall a b c, cmp a b <> Gt -> cmp b c <> Gt -> cmp a c <> Gt).

(** [a] does not sort after [b]. *)
Definition not_after {N : Type} (cmp : string -> string -> comparison)
           (a b : Bar N) : Prop :=
  cmp (date a) (date b) <> Gt.

(** A record without the [vol] and [oi] keys. *)
Definition lacks_volume_keys {N : Type} (b : Bar N) : Prop :=
  vol b = None /\ oi b = None.

End ComparatorLaws.

(* ================================================================= *)
(** ** tools/lib_mcx.js                                                *)

(** Strings are sequences of code units; the model covers code units
    below 256. *)
Module Text.

(** The white space and line terminators [String.prototype.trim] strips,
    among code units below 256: TAB, LF, VT, FF, CR, SPACE and NBSP. *)
Definition is_space (ch : ascii) : bool :=
  let n := nat_of_ascii ch in
  (((9 <=? n) && (n <=? 13)) || (n =? 32) || (n =? 160))%nat.

Fixpoint trim_start (s : string) : string :=
  match s with
  | EmptyString => EmptyString
  | String ch r => if is_space ch then trim_start r else s
  end.

Fixpoint trim_end (s : string) : string :=
  match s with
  | EmptyString => EmptyString
  | String ch r =>
      match trim_end r with
      | EmptyString => if is_space ch then EmptyString else String ch EmptyString
      | t => String ch t
      end
  end.

(** [s.trim()] *)
Definition trim (s : string) : string := trim_end (trim_start s).

(** [s.replace(/,/g, "")] *)
Fixpoint remove_commas (s : string) : string :=
  match s with
  | EmptyString => EmptyString
  | String ch r =>
      if Ascii.eqb ch ","%char then remove_commas r else String ch (remove_commas r)
  end.

(** Put [ch] in front of the first piece of a split. *)
Definition cons_first (ch : ascii) (pieces : list string) : list string :=
  match pieces with
  | p :: rest => String ch p :: rest
  | [] => [String ch EmptyString]
  end.

(** [s.split(",")] *)
Fixpoint split_commas (s : string) : list string :=
  match s with
  | EmptyString => [EmptyString]
  | String ch r =>
      if Ascii.eqb ch ","%char then EmptyString :: split_commas r
      else cons_first ch (split_commas r)
  end.

(** [s.split(/\r?\n/)]: a line feed, with the carriage return right before
    it if there is one, separates two lines. *)
Fixpoint split_lines (s : string) : list string :=
  match s with
  | EmptyString => [EmptyString]
  | String ch r =>
      if Ascii.eqb ch "010"%char then EmptyString :: split_lines r
      else
        match r with
        | String ch2 r2 =>
            if Ascii.eqb ch "013"%char && Ascii.eqb ch2 "010"%char
            then EmptyString :: split_lines r2
            else cons_first ch (split_lines r)
        | EmptyString => cons_first ch (split_lines r)
        end
  end.

(** [Boolean(s)] for a string. *)
Definition nonempty (s : string) : bool :=
  match s with EmptyString => false | _ => true end.

(** [s.toLowerCase()] on code units below 256. *)
Definition lower_char (ch : ascii) : ascii :=
  let n := nat_of_ascii ch in
  if (((65 <=? n) && (n <=? 90))
      || ((192 <=? n) && (n <=? 222) && negb (n =? 215)))%nat
  then ascii_of_nat (n + 32) else ch.

Fixpoint lower (s : string) : string :=
  match s with
  | EmptyString => EmptyString
  | String ch r => String (lower_char ch) (lower r)
  end.

(** [s.includes(needle)] *)
Fixpoint includes (needle s : string) : bool :=
  prefix needle s
  || match s with
     | EmptyString => false
     | String _ r => includes needle r
     end.

End Text.

(** A parsed CSV row: the object built by [obj[header[j]] = cols[j]], as
    its own properties, the latest assignment first.  A value is [None]
    when the line had no such column ([undefined]). *)
Definition Row : Type := list (string * option string).

(** The names an object literal inherits from [Object.prototype]. *)
Definition inherited_names : list string :=
  ["__proto__"; "constructor"; "hasOwnProperty"; "isPrototypeOf";
   "propertyIsEnumerable"; "toLocaleString"; "toString"; "valueOf";
   "__defineGetter__"; "__defineSetter__"; "__lookupGetter__";
   "__lookupSetter__"]%string.

Definition inherited (k : string) : bool :=
  existsb (String.eqb k) inherited_names.

(** [row[k]]: [None] for a missing key and for [undefined].  This is the
    read of an own property; for a [k] among [inherited_names] that the row
    does not own, and for [__proto__], the host answers from the prototype
    instead.  The code only reads the column names listed in
    [extractGoldRow] and [mapRowToBar], none of which is inherited. *)
Fixpoint row_get (row : Row) (k : string) : option string :=
  match row with
  | [] => None
  | (k', v) :: rest => if (k' =? k)%string then v else row_get rest k
  end.

(** The inner loop of [parseCsvLoose]: one object from a header and the
    columns of a line.  Assigning a string or [undefined] to [__proto__]
    sets nothing. *)
Definition make_row (header cols : list string) : Row :=
  fold_left
    (fun obj j =>
       let k := nth j header EmptyString in
       if (k =? "__proto__")%string then obj
       else (k, nth_error cols j) :: obj)
    (seq 0 (length header)) [].

(** [text.split(/\r?\n/).filter(Boolean)] *)
Definition csv_lines (text : string) : list string :=
  filter Text.nonempty (Text.split_lines text).

(** [line.split(",").map(s => s.trim())] *)
Definition csv_cells (line : string) : list string :=
  map Text.trim (Text.split_commas line).

Definition parseCsvLoose (text : string) : list Row :=
  let lines := csv_lines text in
  match lines with
  | [] => []
  | line0 :: data =>
      let header := csv_cells line0 in
      fold_left
        (fun rows line =>
           let cols := csv_cells line in
           if (length cols <? Nat.min 5 (length header))%nat then rows
           else rows ++ [make_row header cols])
        data []
  end.

(** [a || b || ...] on cell values, as far as its truthiness goes: the
    first non-empty string, if any. *)
Fixpoint first_truthy (vals : list (option string)) : option string :=
  match vals with
  | [] => None
  | Some s :: rest => if Text.nonempty s then Some s else first_truthy rest
  | None :: rest => first_truthy rest
  end.

(** The row names gold: [norm(maybeSymbol).includes("gold")]. *)
Definition names_gold (r : Row) : bool :=
  let maybeSymbol :=
    first_truthy (map (row_get r)
      ["SYMBOL"; "Symbol"; "INSTRUMENT"; "Instrument"; "COMMODITY";
       "Commodity"; "COMMODITY_NAME"]%string) in
  let v := Text.lower (match maybeSymbol with Some s => s | None => EmptyString end) in
  Text.includes "gold"%string v.

(** [getExpiry(r) || "9999-12-31"] *)
Definition expiry_or_last (r : Row) : string :=
  match first_truthy (map (row_get r)
          ["EXPIRY"; "Expiry"; "EXPIRY_DATE"; "Expiry Date"]%string) with
  | Some e => e
  | None => "9999-12-31"%string
  end.

Section GoldRow.
Variable localeCompare : string -> string -> comparison.

(** [candidates.sort((a, b) => ea.localeCompare(eb))], a stable sort. *)
Fixpoint insert_by_expiry (x : Row) (xs : list Row) : list Row :=
  match xs with
  | [] => [x]
  | y :: r =>
      match localeCompare (expiry_or_last x) (expiry_or_last y) with
      | Gt => y :: insert_by_expiry x r
      | _ => x :: y :: r
      end
  end.

Fixpoint sort_by_expiry (xs : list Row) : list Row :=
  match xs with
  | [] => []
  | x :: r => insert_by_expiry x (sort_by_expiry r)
  end.

Definition extractGoldRow (rows : list Row) : option Row :=
  let candidates := filter names_gold rows in
  match candidates with
  | [] => None
  | _ => nth_error (sort_by_expiry candidates) 0
  end.

End GoldRow.

Section RowToBar.
Context {N : Type}.

(** [Number(v)] on a string and [Number.isFinite] are built-ins of the
    host. *)
Variable Number_ : string -> N.
Variable isFinite : N -> bool.

Definition toNumber (x : option string) : option N :=
  match x with
  | None => None
  | Some s =>
      let v := Text.remove_commas (Text.trim s) in
      let n := Number_ v in
      if isFinite n then Some n else None
  end.

(** [get(...keys)]: the value of the first key that is present. *)
Fixpoint get (row : Row) (keys : list string) : option string :=
  match keys with
  | [] => None
  | k :: rest =>
      match row_get row k with
      | Some v => Some v
      | None => get row rest
      end
  end.

Definition mapRowToBar (row : Row) : ParsedBar N :=
  let o := toNumber (get row ["OPEN"; "Open"; "OPEN_PRICE"; "OPENPR"]%string) in
  let h := toNumber (get row ["HIGH"; "High"; "HIGH_PRICE"; "HIGHPR"]%string) in
  let l := toNumber (get row ["LOW"; "Low"; "LOW_PRICE"; "LOWPR"]%string) in
  let c := toNumber (get row ["CLOSE"; "Close"; "CLOSE_PRICE"; "CLOSEPR";
                              "SETTLE"; "Settle"; "SETTLEMENT_PRICE"]%string) in
  let pc := toNumber (get row ["PREVCLOSE"; "PREV_CLOSE"; "Prev Close";
                               "PREVIOUS_CLOSE"; "PREVCLOSE_PRICE"]%string) in
  let vol := toNumber (get row ["VOLUME"; "Volume"; "VOLUME_TRD"; "TRD_QTY"]%string) in
  let val := toNumber (get row ["VALUE"; "Value"; "TRD_VAL"; "TURNOVER"]%string) in
  let oi := toNumber (get row ["OI"; "Open Interest"; "OPEN_INTEREST"; "OPENINT"]%string) in
  let expiry :=
    match get row ["EXPIRY"; "Expiry"; "EXPIRY_DATE"; "Expiry Date"]%string with
    | Some e => if Text.nonempty e then Some e else None
    | None => None
    end in
  let symbol :=
    match get row ["SYMBOL"; "Symbol"; "INSTRUMENT"; "Instrument"; "COMMODITY";
                   "Commodity"; "COMMODITY_NAME"]%string with
    | Some s => if Text.nonempty s then s else "GOLD"%string
    | None => "GOLD"%string
    end in
  {| p_symbol := symbol; p_expiry := expiry;
     p_o := o; p_h := h; p_l := l; p_c := c;
     p_pc := pc; p_vol := vol; p_val := val; p_oi := oi |}.

(** The steps of [main] between reading the file and the scoring: parse,
    find the GOLD row, map it. *)
Definition gold_bar_of_text (localeCompare : string -> string -> comparison)
           (text : string) : option (ParsedBar N) :=
  match extractGoldRow localeCompare (parseCsvLoose text) with
  | Some goldRow => Some (mapRowToBar goldRow)
  | None => None
  end.

End RowToBar.

(* ================================================================= *)
(** ** A table written out as CSV                                      *)

Module Csv.

(** A cell that survives [split] and [trim] unchanged: no comma, no line
    feed, and no white space at either end. *)
Fixpoint plain (s : string) : bool :=
  match s with
  | EmptyString => true
  | String ch r =>
      negb (Ascii.eqb ch ","%char) && negb (Ascii.eqb ch "010"%char) && plain r
  end.

Definition starts_space (s : string) : bool :=
  match s with
  | EmptyString => false
  | String ch _ => Text.is_space ch
  end.

Fixpoint ends_space (s : string) : bool :=
  match s with
  | EmptyString => false
  | String ch EmptyString => Text.is_space ch
  | String _ r => ends_space r
  end.

Definition clean_cell (s : string) : bool :=
  plain s && negb (starts_space s) && negb (ends_space s).

Fixpoint no_line_feed (s : string) : bool :=
  match s with
  | EmptyString => true
  | String ch r => negb (Ascii.eqb ch "010"%char) && no_line_feed r
  end.

Fixpoint ends_with_cr (s : string) : bool :=
  match s with
  | EmptyString => false
  | String ch EmptyString => Ascii.eqb ch "013"%char
  | String _ r => ends_with_cr r
  end.

(** [cells.join(",")] *)
Definition join_cells (cells : list string) : string := String.concat "," cells.

(** The lines of a table, one per row, each ended by a line feed. *)
Fixpoint join_lines (lines : list string) : string :=
  match lines with
  | [] => EmptyString
  | l :: rest => (l ++ String "010"%char (join_lines rest))%string
  end.

Definition render (header : list string) (rows : list (list string)) : string :=
  join_lines (map join_cells (header :: rows)).

End Csv.

Section TextRun.
Context {N : Type}.
Variable Number_ : string -> N.
Variable isFinite : N -> bool.
Variable localeCompare : string -> string -> comparison.

(** A run whose bhavcopy reads as [text]: [main] parses it, looks for the
    GOLD row and maps it. *)
Definition run_on_text (run : Run N) (text : string) : Run N :=
  {| arg_file := arg_file run;
     arg_url := arg_url run;
     arg_date := arg_date run;
     today := today run;
     gold_bar := gold_bar_of_text Number_ isFinite localeCompare text;
     now_record := now_record run;
     now_latest := now_latest run |}.

End TextRun.

(* ================================================================= *)
(** ** tools/update_mcx.js: the script on its host                     *)

Section Script.
Context {N : Type} `{JsNumber N}.
Variable Number_ : string -> N.
Variable isFinite : N -> bool.
Variable localeCompare : string -> string -> comparison.

(** What the network and the file system answer during one run; [None]
    and [false] stand for a call that throws.  A copy that
    [downloadToFile] has just written is taken to read back as written. *)
Record Host : Type := mkHost {
  fetched : option string;     (* downloadToFile(url, inputPath): the body *)
  file_text : option string;   (* readTextFile(file) *)
  log_parses : bool;           (* JSON.parse on the lines of the log *)
  append_ok : bool;            (* appendHistory(record) *)
  save_ok : bool               (* saveLatest(latestJson) *)
}.

(** How the process ends: [process.exit(code)], the end of [main], or an
    exception that nothing catches ([main] has no [try]).  The host
    reports an uncaught exception on its own (current Node ends the
    process with status 1); [Uncaught] is kept apart from [Exited 1],
    which is the script's own [process.exit(1)]. *)
Inductive Ending : Type :=
| Exited (code : nat)
| Completed
| Uncaught.

(** The files after the run and how it ended; [raw_copy] is what
    [downloadToFile] wrote under [data/raw]. *)
Record Process : Type := mkProcess {
  raw_copy : option string;
  store_after : Store N;
  ending : Ending
}.

(** [readTextFile(inputPath)]: with [--url] the downloaded copy, else the
    [--file] path. *)
Definition input_text (host : Host) (run : Run N) : option string :=
  if truthy_str (arg_url run) then fetched host else file_text host.

(** [[bar.o, bar.h, bar.l, bar.c].every(n => typeof n === "number")] *)
Definition numeric_ohlc (bar : ParsedBar N) : bool :=
  match p_o bar, p_h bar, p_l bar, p_c bar with
  | Some _, Some _, Some _, Some _ => true
  | _, _, _, _ => false
  end.

Definition update_mcx (host : Host) (run : Run N) (st : Store N) : Process :=
  let file := arg_file run in
  let url := arg_url run in
  let date_ := run_date run in
  if negb (truthy_str file) && negb (truthy_str url) then
    mkProcess None st (Exited 1)
  else
    match input_text host run with
    | None => mkProcess None st Uncaught
    | Some text =>
        let raw := if truthy_str url then Some text else None in
        let rows := parseCsvLoose text in
        match extractGoldRow localeCompare rows with
        | None => mkProcess raw st (Exited 2)
        | Some goldRow =>
            let bar := mapRowToBar Number_ isFinite goldRow in
            match p_o bar, p_h bar, p_l bar, p_c bar with
            | Some bo, Some bh, Some bl, Some bc =>
                if negb (log_parses host) then mkProcess raw st Uncaught
                else
                  let history := loadHistory st in
                  let exists_ := has_date date_ history in
                  let rec := record run bar bo bh bl bc in
                  if negb exists_ && negb (append_ok host) then
                    mkProcess raw st Uncaught
                  else
                    let st1 := if negb exists_ then appendHistory rec st else st in
                    let history1 :=
                      if negb exists_ then history ++ [rec] else history in
                    let sorted := sort_by_date localeCompare history1 in
                    let calc := computeScore sorted in
                    match nth_error sorted (length sorted - 1) with
                    | None => mkProcess raw st1 Uncaught
                    | Some latest =>
                        if save_ok host then
                          mkProcess raw
                            (saveLatest (latestJson latest calc (now_latest run)) st1)
                            Completed
                        else mkProcess raw st1 Uncaught
                    end
            | _, _, _, _ => mkProcess raw st (Exited 3)
            end
        end
    end.

End Script.

Arguments Process N : clear implicits.

(** A small bhavcopy and a host for it. *)
Module SampleCsv.
Local Open Scope string_scope.

Definition header : list string :=
  ["SYMBOL"; "EXPIRY"; "OPEN"; "HIGH"; "LOW"; "CLOSE"].

Definition silver : list string :=
  ["SILVER"; "2026-03-05"; "90100"; "90500"; "89900"; "90200"].

Definition gold_april : list string :=
  ["GOLD"; "2026-04-03"; "2000"; "2010"; "1990"; "2005"].

Definition gold_mini : list string :=
  ["GOLDM"; "2026-02-05"; "1995"; "2004"; "1985"; "2001"].

Definition text : string := Csv.render header [silver; gold_april; gold_mini].

Definition text_without_gold : string := Csv.render header [silver].

(** The value of a string of decimal digits. *)
Fixpoint digits_value (s : string) (acc : Z) : option Z :=
  match s with
  | EmptyString => Some acc
  | String ch r =>
      let n := nat_of_ascii ch in
      if ((48 <=? n) && (n <=? 57))%nat
      then digits_value r (10 * acc + Z.of_nat (n - 48))
      else None
  end.

(** A stand-in for [Number] in the examples: it agrees with the host on
    strings of decimal digits and on the empty string, and answers NaN
    elsewhere (the host also reads signs, fractions and exponents). *)
Definition number_of_digits (s : string) : float :=
  match digits_value s 0 with
  | Some z => Binary64.ofZ z
  | None => PrimFloat.nan
  end.

(** [Number.isFinite] on doubles. *)
Definition is_finite (x : float) : bool := PrimFloat.is_finite x.

(** [node tools/update_mcx.js --file bhav.csv --date 2026-02-18] on a
    bhavcopy that reads as [text]. *)
Definition run_on (text : string) : Run float :=
  run_on_text number_of_digits is_finite String.compare Sample.run_noon text.

(** [node tools/update_mcx.js --url https://mcx.example/bhav.csv
    --date 2026-02-18]. *)
Definition run_url : Run float :=
  {| arg_file := None; arg_url := Some "https://mcx.example/bhav.csv";
     arg_date := Some "2026-02-18"; today := "2026-02-18";
     gold_bar := None;
     now_record := "2026-02-18T12:00:00.000Z";
     now_latest := "2026-02-18T12:00:00.005Z" |}.

(** A host on which the download answers [text] and nothing throws. *)
Definition serving (text : string) : Host :=
  {| fetched := Some text; file_text := None;
     log_parses := true; append_ok := true; save_ok := true |}.

(** A host on which the [--file] path cannot be read. *)
Definition unreadable : Host :=
  {| fetched := None; file_text := None;
     log_parses := true; append_ok := true; save_ok := true |}.

(** A store with one earlier day in its log. *)
Definition one_day_store : Store float :=
  {| history_file := [plain_bar "2026-02-17" 1990%float None None];
     latest_file := None |}.

End SampleCsv.

(** Expose the rational operations behind the interface. *)
Ltac exact_ops :=
  cbv beta iota delta
    [add sub mul div neg ltb seqb truthy abs sqrt sign round max2 min2
     ofZ nan ofNat dec Exact.number] in *.

(** Equality of two closed rationals. *)
Ltac qc_closed := apply Qc_is_canon; vm_compute; reflexivity.

(* ================================================================= *)
(** * Properties                                                       *)

(** ** Index loops read the tail of the array                          *)

Section IndexLoops.
Context {A B : Type}.

Lemma nth_seq_after (d : A) (rest pre : list A) :
  map (fun i => nth i (pre ++ rest) d) (seq (length pre) (length rest)) = rest.
Proof.
  revert pre. induction rest as [|x r IH]; intros pre; [reflexivity|].
  cbn [length seq map]. rewrite nth_middle. f_equal.
  specialize (IH (pre ++ [x])).
  rewrite <- app_assoc, length_app, Nat.add_comm in IH. exact IH.
Qed.

Lemma nth_seq_skipn (d : A) (xs : list A) (p : nat) :
  p <= length xs ->
  map (fun i => nth i xs d) (seq p (length xs - p)) = skipn p xs.
Proof.
  intros Hp.
  pose proof (nth_seq_after d (skipn p xs) (firstn p xs)) as E.
  rewrite firstn_skipn, length_firstn, length_skipn, Nat.min_l in E by exact Hp.
  exact E.
Qed.

Lemma fold_left_through_map (f : B -> A -> B) (g : nat -> A) (idx : list nat) (b : B) :
  fold_left (fun acc i => f acc (g i)) idx b = fold_left f (map g idx) b.
Proof.
  revert b. induction idx as [|i r IH]; intros b; [reflexivity|]. cbn. apply IH.
Qed.

(** A [for (i = p; i < xs.length; i++)] loop that only reads [xs[i]] is a
    fold over [xs.slice(p)]. *)
Lemma index_loop_is_fold (f : B -> A -> B) (d : A) (xs : list A) (p : nat) (b : B) :
  p <= length xs ->
  fold_left (fun acc i => f acc (nth i xs d)) (seq p (length xs - p)) b
  = fold_left f (skipn p xs) b.
Proof.
  intros Hp. rewrite fold_left_through_map, nth_seq_skipn by exact Hp. reflexivity.
Qed.
End IndexLoops.

Section IndicatorFacts.
Context {N : Type} `{JsNumber N}.
Local Open Scope js_scope.

Lemma slice_last_all (xs : list N) : slice_last xs (length xs) = xs.
Proof. unfold slice_last. rewrite Nat.sub_diag. reflexivity. Qed.

(** The simple moving average of exactly [period] values is their mean. *)
Lemma sma_first_window (values : list N) (period : nat) :
  period <= length values ->
  sma (firstn period values) period
  = Some (sum (firstn period values) / ofNat period).
Proof.
  intros Hp. unfold sma.
  assert (L : length (firstn period values) = period)
    by (rewrite length_firstn; lia).
  unfold slice_last. rewrite L, Nat.ltb_irrefl, Nat.sub_diag. reflexivity.
Qed.

Lemma sma_first_short (values : list N) (period : nat) :
  length values < period -> sma (firstn period values) period = None.
Proof.
  intros Hp. unfold sma.
  assert (L : length (firstn period values) = length values)
    by (rewrite length_firstn; lia).
  rewrite L. apply Nat.ltb_lt in Hp. rewrite Hp. reflexivity.
Qed.

Lemma ema_loop_is_fold (values : list N) (k : N) (period : nat) (e0 : N) :
  period <= length values ->
  ema_loop values k period e0
  = fold_left (fun e v => v * k + e * (ofZ 1 - k)) (skipn period values) e0.
Proof.
  intros Hp. unfold ema_loop, at_index.
  exact (index_loop_is_fold (fun e v => v * k + e * (ofZ 1 - k)) nan values e0 Hp).
Qed.

Lemma true_ranges_length (bars : list (HLC N)) (pc : option N) :
  length (true_ranges pc bars) = length bars.
Proof.
  revert pc. induction bars as [|b r IH]; intros pc; cbn; [reflexivity|].
  now rewrite IH.
Qed.

Lemma atr_trs_from (rest pre : list (HLC N)) (acc : list N) :
  fold_left
    (fun trs i =>
       match nth_error (pre ++ rest) i with
       | Some b => trs ++ [trueRange (prev_close_at (pre ++ rest) i) (h_ b) (l_ b)]
       | None => trs
       end)
    (seq (length pre) (length rest)) acc
  = acc ++ true_ranges (prev_close_at (pre ++ rest) (length pre)) rest.
Proof.
  revert pre acc. induction rest as [|b r IH]; intros pre acc.
  - cbn. now rewrite app_nil_r.
  - cbn [length seq fold_left true_ranges].
    rewrite nth_error_app2, Nat.sub_diag by lia. cbn [nth_error].
    specialize (IH (pre ++ [b]) (acc ++ [trueRange (prev_close_at (pre ++ b :: r) (length pre)) (h_ b) (l_ b)])).
    rewrite <- app_assoc, length_app, Nat.add_comm in IH. cbn [app length Nat.add] in IH.
    rewrite IH, <- app_assoc. cbn [app]. do 3 f_equal.
    unfold prev_close_at. cbn [Nat.eqb]. rewrite Nat.sub_1_r. cbn [Nat.pred].
    rewrite nth_error_app2, Nat.sub_diag by lia. reflexivity.
Qed.

Lemma atr_trs_true_ranges (bars : list (HLC N)) :
  atr_trs bars = true_ranges None bars.
Proof.
  unfold atr_trs. exact (atr_trs_from bars [] []).
Qed.

Lemma atr_loop_is_fold (trs : list N) (atr0 : N) :
  14 <= length trs ->
  atr_loop trs 14 atr0
  = fold_left (fun atr tr => (atr * (ofZ 14 - ofZ 1) + tr) / ofZ 14)
              (skipn 14 trs) atr0.
Proof.
  intros Hp. unfold atr_loop, at_index.
  exact (index_loop_is_fold
           (fun atr tr => (atr * (ofZ 14 - ofZ 1) + tr) / ofZ 14) nan trs atr0 Hp).
Qed.

End IndicatorFacts.

(* ================================================================= *)
(** ** Indicator library                                               *)

Section IndicatorClaims.
Context {N : Type} `{JsNumber N}.
Local Open Scope js_scope.

Lemma sma_short (values : list N) (period : nat) :
  length values < period -> sma values period = None.
Proof. intros Hp. unfold sma. apply Nat.ltb_lt in Hp. now rewrite Hp. Qed.

Lemma ema_short (values : list N) (period : nat) :
  length values < period -> ema values period = None.
Proof. intros Hp. unfold ema. apply Nat.ltb_lt in Hp. now rewrite Hp. Qed.

Lemma zscore_short (values : list N) (lookback : nat) :
  length values < lookback -> zscore values lookback = None.
Proof. intros Hp. unfold zscore. apply Nat.ltb_lt in Hp. now rewrite Hp. Qed.

Lemma atr14_short (bars : list (HLC N)) :
  length bars < 15 -> atr14 bars = None.
Proof.
  intros Hp. unfold atr14. cbn [Nat.add].
  apply Nat.ltb_lt in Hp. now rewrite Hp.
Qed.

Lemma ema_available (values : list N) (period : nat) :
  period <= length values ->
  ema values period
  = Some (fold_left (fun e v => v * (ofZ 2 / (ofNat period + ofZ 1))
                                + e * (ofZ 1 - ofZ 2 / (ofNat period + ofZ 1)))
                    (skipn period values)
                    (sum (firstn period values) / ofNat period)).
Proof.
  intros Hp. unfold ema.
  assert (G : (length values <? period)%nat = false) by (apply Nat.ltb_ge; exact Hp).
  rewrite G. cbv zeta. now rewrite ema_loop_is_fold.
Qed.

(** C4. [ema] is the simple moving average of the first [period] values
    blended forward, in order, through the rest of the sequence with
    [e_i = value_i * k + e_(i-1) * (1 - k)], [k = 2 / (period + 1)], when
    there are at least [period] values, and unavailable otherwise.  The
    right-hand sides name no embedded function: the seed is the sum of the
    first [period] values, taken from [0] in order, over [period]. *)
Theorem ema_seed_and_blend (values : list N) (period : nat) :
  ema values period = ema_spec values period
  /\ ema values period
     = if (length values <? period)%nat then None
       else Some (fold_left
                    (fun e v => v * (ofZ 2 / (ofZ (Z.of_nat period) + ofZ 1))
                                + e * (ofZ 1 - ofZ 2 / (ofZ (Z.of_nat period) + ofZ 1)))
                    (skipn period values)
                    (fold_left (fun a b => a + b) (firstn period values) (ofZ 0)
                     / ofZ (Z.of_nat period))).
Proof.
  unfold ema_spec, mean_of_first.
  destruct (Nat.lt_ge_cases (length values) period) as [Hs|Hp].
  - rewrite (ema_short _ Hs).
    apply Nat.ltb_lt in Hs. rewrite Hs. split; reflexivity.
  - rewrite (ema_available _ Hp).
    apply Nat.ltb_ge in Hp. rewrite Hp. split; reflexivity.
Qed.

Lemma atr14_available `{!LawfulNumber N} (bars : list (HLC N)) :
  15 <= length bars ->
  atr14 bars
  = Some (fold_left (fun atr tr => (atr * ofZ 13 + tr) / ofZ 14)
                    (skipn 14 (true_ranges None bars))
                    (sum (firstn 14 (true_ranges None bars)) / ofZ 14)).
Proof.
  intros Hp. unfold atr14. cbn [Nat.add].
  assert (G : (length bars <? 15)%nat = false) by (apply Nat.ltb_ge; exact Hp).
  rewrite G. cbv zeta. rewrite atr_trs_true_ranges.
  rewrite atr_loop_is_fold by (rewrite true_ranges_length; lia).
  rewrite period_minus_1. reflexivity.
Qed.

Lemma true_ranges_as_spec (pc : option N) (bars : list (HLC N)) :
  true_ranges pc bars = true_ranges_spec pc bars.
Proof.
  revert pc. induction bars as [|b r IH]; intros pc; [reflexivity|].
  cbn [true_ranges true_ranges_spec]. rewrite IH. reflexivity.
Qed.

(** C5. [atr14] is the Wilder average of the true ranges: the true range
    of every bar against the previous bar's close,
    [max(high - low, |high - close|, |low - close|)] (the first bar has
    none and takes [high - low]), the mean of the first 14 as seed, then
    [atr = (atr * 13 + tr) / 14] for each later true range; it is
    unavailable below 15 bars. *)
Theorem atr14_wilder `{!LawfulNumber N} (bars : list (HLC N)) :
  atr14 bars = atr14_spec bars.
Proof.
  unfold atr14_spec, mean_of_first.
  destruct (Nat.lt_ge_cases (length bars) 15) as [Hs|Hp].
  - rewrite (atr14_short _ Hs). apply Nat.ltb_lt in Hs. now rewrite Hs.
  - rewrite (atr14_available _ Hp).
    assert (G : (length bars <? 15)%nat = false) by (apply Nat.ltb_ge; exact Hp).
    rewrite G, true_ranges_as_spec. reflexivity.
Qed.

End IndicatorClaims.

(* ================================================================= *)
(** ** Scoring engine                                                  *)

Section ScoringClaims.
Context {N : Type} `{JsNumber N}.
Local Open Scope js_scope.

Lemma guard_passed (history : list (Bar N)) :
  60 <= length history -> (length history <? 60)%nat = false.
Proof. intros Hlen. apply Nat.ltb_ge. exact Hlen. Qed.

(** C3. Below 60 bars [computeScore] answers with the fixed record
    [score = 0], [verdict = HOLD], [confidence = 0] and a reason; the bars
    are not looked at, so no indicator enters the result. *)
Theorem short_history_holds (history : list (Bar N)) :
  length history < 60 ->
  computeScore history
  = {| score := ofZ 0;
       verdict := HOLD;
       confidence := ofZ 0;
       signals := Reason "need >= 60 days history" |}.
Proof.
  intros Hlen. unfold computeScore.
  apply Nat.ltb_lt in Hlen. rewrite Hlen. reflexivity.
Qed.

Lemma verdict_is_verdict_of (history : list (Bar N)) :
  60 <= length history ->
  verdict (computeScore history) = verdict_of (score (computeScore history)).
Proof.
  intros Hlen. unfold computeScore. rewrite (guard_passed _ Hlen).
  reflexivity.
Qed.

Lemma verdict_of_buy (s : N) :
  verdict_of s = BUY <-> (dec 25 100 <? s) = true.
Proof.
  unfold verdict_of. destruct (dec 25 100 <? s); [tauto|].
  destruct (s <? - dec 25 100); split; discriminate.
Qed.

Lemma verdict_of_sell `{!LawfulNumber N} (s : N) :
  verdict_of s = SELL <-> (s <? - dec 25 100) = true.
Proof.
  unfold verdict_of. destruct (dec 25 100 <? s) eqn:Hb.
  - rewrite (quarter_apart _ Hb). split; discriminate.
  - destruct (s <? - dec 25 100); [tauto|split; discriminate].
Qed.

Lemma verdict_of_quarter `{!LawfulNumber N} :
  verdict_of (dec 25 100 : N) = HOLD /\ verdict_of (- dec 25 100 : N) = HOLD.
Proof.
  unfold verdict_of. now rewrite !ltb_irrefl, quarter_above.
Qed.

(** C6. The verdict is BUY exactly when [score > 0.25] and SELL exactly
    when [score < -0.25]; a score of exactly [0.25] or [-0.25] is HOLD. *)
Theorem verdict_thresholds `{!LawfulNumber N} (history : list (Bar N)) :
  60 <= length history ->
  let r := computeScore history in
  (verdict r = BUY <-> (dec 25 100 <? score r) = true)
  /\ (verdict r = SELL <-> (score r <? - dec 25 100) = true)
  /\ (score r = dec 25 100 -> verdict r = HOLD)
  /\ (score r = - dec 25 100 -> verdict r = HOLD).
Proof.
  intros Hlen r. subst r. rewrite (verdict_is_verdict_of _ Hlen).
  repeat split.
  - apply verdict_of_buy.
  - apply verdict_of_buy.
  - apply verdict_of_sell.
  - apply verdict_of_sell.
  - intros ->. apply verdict_of_quarter.
  - intros ->. apply verdict_of_quarter.
Qed.

Lemma bundle_ret_5d (history : list (Bar N)) :
  60 <= length history ->
  exists b,
    signals (computeScore history) = Bundle b
    /\ ret_5d b = ret_over (close_at history (length history - 6))
                           (close_at history (length history - 1)).
Proof.
  intros Hlen. unfold computeScore. rewrite (guard_passed _ Hlen).
  cbv zeta. eexists. split; reflexivity.
Qed.

(** C8 (amended). With at least 60 bars, [ret_5d] compares the last
    close with the close at index [length - 6]: it is
    [close[last] / close[length-6] - 1] when both closes are present and
    truthy (neither [0] nor NaN), and [0] when either close is missing or
    not truthy. *)
Theorem ret5d_lookback (history : list (Bar N)) :
  60 <= length history ->
  exists b,
    signals (computeScore history) = Bundle b
    /\ (forall base cur,
          close_at history (length history - 6) = Some base ->
          close_at history (length history - 1) = Some cur ->
          truthy base = true -> truthy cur = true ->
          ret_5d b = cur / base - ofZ 1)
    /\ (close_at history (length history - 6) = None -> ret_5d b = ofZ 0)
    /\ (close_at history (length history - 1) = None -> ret_5d b = ofZ 0)
    /\ (forall base,
          close_at history (length history - 6) = Some base ->
          truthy base = false -> ret_5d b = ofZ 0)
    /\ (forall cur,
          close_at history (length history - 1) = Some cur ->
          truthy cur = false -> ret_5d b = ofZ 0).
Proof.
  intros Hlen. destruct (bundle_ret_5d _ Hlen) as (b & Hb & Hr).
  exists b. split; [exact Hb|]. rewrite Hr. unfold ret_over.
  split; [|split; [|split; [|split]]].
  - intros base cur Eb Ec Tb Tc. now rewrite Eb, Ec, Tb, Tc.
  - intros Eb. now rewrite Eb.
  - intros Ec. rewrite Ec.
    now destruct (close_at history (length history - 6)).
  - intros base Eb Tb. rewrite Eb, Tb.
    now destruct (close_at history (length history - 1)).
  - intros cur Ec Tc. rewrite Ec.
    destruct (close_at history (length history - 6)); [|reflexivity].
    now rewrite Tc, andb_false_r.
Qed.

Lemma same_but_high_low_length (h1 h2 : list (Bar N)) :
  Forall2 same_but_high_low h1 h2 -> length h1 = length h2.
Proof. induction 1; cbn; congruence. Qed.

Lemma same_but_high_low_map (h1 h2 : list (Bar N)) :
  Forall2 same_but_high_low h1 h2 ->
  map c h1 = map c h2 /\ map vol h1 = map vol h2 /\ map oi h1 = map oi h2.
Proof.
  induction 1 as [|a b r1 r2 (_ & Hc & Hv & Ho) _ (IHc & IHv & IHo)]; cbn.
  - repeat split.
  - rewrite Hc, Hv, Ho, IHc, IHv, IHo. repeat split.
Qed.

Lemma close_at_map (history : list (Bar N)) (i : nat) :
  close_at history i
  = match nth_error (map c history) i with Some x => x | None => None end.
Proof.
  unfold close_at. rewrite nth_error_map. now destruct (nth_error history i).
Qed.

(** C9. Two histories that agree bar by bar on date, close, volume and
    open interest, whatever their highs and lows, get the same score and
    the same verdict. *)
Theorem score_ignores_high_low (h1 h2 : list (Bar N)) :
  Forall2 same_but_high_low h1 h2 ->
  score (computeScore h1) = score (computeScore h2)
  /\ verdict (computeScore h1) = verdict (computeScore h2).
Proof.
  intros Hs.
  pose proof (same_but_high_low_length Hs) as Hl.
  destruct (same_but_high_low_map Hs) as (Hc & Hv & Ho).
  assert (Hk : forall i, close_at h1 i = close_at h2 i)
    by (intros i; now rewrite !close_at_map, Hc).
  unfold computeScore. rewrite Hl.
  destruct (length h2 <? 60)%nat; [split; reflexivity|].
  cbv zeta. cbn [score verdict]. rewrite Hc, Hv, Ho, !Hk. split; reflexivity.
Qed.

End ScoringClaims.

(* ================================================================= *)
(** ** Both carriers are lawful                                        *)

Module Binary64Facts.
Import Binary64.
Local Open Scope float_scope.

Lemma ofZ_0 : ofZ 0 = 0.
Proof. vm_compute. reflexivity. Qed.

Lemma dec_quarter : dec (N:=float) 25 100 = 0.25.
Proof. vm_compute. reflexivity. Qed.

Lemma float_ltb_irrefl (x : float) : (x <? x) = false.
Proof.
  rewrite ltb_spec. unfold SFltb.
  destruct (Prim2SF x) as [s|s| |s m e]; cbn; try reflexivity.
  - now destruct s.
  - destruct s; now rewrite Z.compare_refl, Pos.compare_cont_refl.
Qed.

(** Nothing above [0.25] is below [-0.25]. *)
Lemma float_quarter_apart (s : float) :
  (0.25 <? s) = true -> (s <? -0.25) = false.
Proof.
  rewrite !ltb_spec. unfold SFltb.
  let v := eval vm_compute in (Prim2SF 0.25) in change (Prim2SF 0.25) with v.
  let v := eval vm_compute in (Prim2SF (-0.25)) in change (Prim2SF (-0.25)) with v.
  destruct (Prim2SF s) as [z|i| |sg m e];
    cbv beta iota delta [SFcompare]; try discriminate.
  - destruct i; [discriminate|reflexivity].
  - destruct sg; [discriminate|reflexivity].
Qed.

(** The two zeros are the only floats [=== 0]. *)
Lemma float_eqb_zero (x : float) :
  (x =? 0) = true -> x = 0 \/ x = -0.
Proof.
  rewrite FloatAxioms.eqb_spec. unfold SFeqb.
  change (Prim2SF 0) with (S754_zero false).
  destruct (Prim2SF x) as [z|i| |sg m e] eqn:E; cbn; try discriminate.
  - intros _. rewrite <- (SF2Prim_Prim2SF x), E.
    destruct z; [right|left]; reflexivity.
  - now destruct i.
  - now destruct sg.
Qed.

(** The decimal literals of the source, as the carrier builds them. *)
Lemma decimal_literals :
  dec (N:=float) 25 100 = 0.25 /\ dec (N:=float) 1 100 = 0.01
  /\ dec (N:=float) 6 10 = 0.6 /\ dec (N:=float) 5 10 = 0.5
  /\ dec (N:=float) 3 10 = 0.3 /\ dec (N:=float) 2 10 = 0.2
  /\ dec (N:=float) 55 100 = 0.55 /\ dec (N:=float) 20 100 = 0.20.
Proof. repeat split; vm_compute; reflexivity. Qed.

(** [Math.round] rounds halves up and keeps the sign of a zero result. *)
Lemma round_samples :
  map round [0.5; -0.5; 2.5; -2.5; 0.49999999999999994; 28.333333333333336; -3.7]
  = [1; -0; 3; -2; 0; 28; -4].
Proof. vm_compute. reflexivity. Qed.

#[global] Instance lawful : LawfulNumber float.
Proof.
  constructor.
  - vm_compute. reflexivity.
  - exact float_ltb_irrefl.
  - intros s. rewrite dec_quarter. apply float_quarter_apart.
  - vm_compute. reflexivity.
  - intros x Hx.
    change ((x =? ofZ 0) = true) in Hx.
    change ((PrimFloat.sqrt x =? ofZ 0) = true).
    rewrite ofZ_0 in Hx |- *.
    destruct (float_eqb_zero Hx) as [-> | ->]; vm_compute; reflexivity.
Qed.
End Binary64Facts.

Module ExactFacts.
Import Exact.
Local Open Scope Qc_scope.

Lemma ltb_lt (x y : Qc) : ltb x y = true <-> x < y.
Proof.
  unfold ltb. rewrite Qclt_alt. destruct (x ?= y); split; congruence.
Qed.

Lemma ltb_ge (x y : Qc) : ltb x y = false <-> y <= x.
Proof.
  split.
  - intros Hf. apply Qcnot_lt_le. intros Hl. apply ltb_lt in Hl. congruence.
  - intros Hle. destruct (ltb x y) eqn:E; [|reflexivity].
    apply ltb_lt in E. now apply Qcle_not_lt in Hle.
Qed.

Lemma lawful (sqrtQc : Qc -> Qc) :
  sqrtQc 0 = 0 -> LawfulNumber Qc (JN := number sqrtQc).
Proof.
  intros Hsqrt. constructor.
  - apply Qc_is_canon. vm_compute. reflexivity.
  - intros x. exact (proj2 (ltb_ge x x) (Qcle_refl x)).
  - intros s Hs. apply ltb_lt in Hs. apply ltb_ge.
    apply Qclt_le_weak. refine (Qclt_trans _ _ _ _ Hs).
    vm_compute. reflexivity.
  - vm_compute. reflexivity.
  - intros x Hx. apply Qc_eq_bool_correct in Hx. subst x.
    change (Qc_eq_bool (sqrtQc 0) 0 = true).
    rewrite Hsqrt. vm_compute. reflexivity.
Qed.
End ExactFacts.

(* ================================================================= *)
(** ** Flat series                                                     *)

Section RepeatFacts.
Context {A : Type}.

Lemma skipn_repeat (x : A) (k n : nat) : skipn k (repeat x n) = repeat x (n - k).
Proof.
  revert k. induction n as [|n IH]; intros [|k]; cbn; try reflexivity. apply IH.
Qed.

Lemma firstn_repeat (x : A) (k n : nat) :
  k <= n -> firstn k (repeat x n) = repeat x k.
Proof.
  revert k. induction n as [|n IH]; intros [|k] Hk; cbn; try reflexivity; try lia.
  f_equal. apply IH. lia.
Qed.
End RepeatFacts.

Section FlatHistory.
Context {N : Type} `{JsNumber N}.

Lemma flat_history_length n (p : N) v w : length (flat_history n p v w) = n.
Proof. unfold flat_history. now rewrite length_map, length_seq. Qed.

Lemma constant_field {B : Type} (f : Bar N -> B) (b : B)
      (mk : nat -> Bar N) (idx : list nat) :
  (forall i, f (mk i) = b) -> map f (map mk idx) = repeat b (length idx).
Proof.
  intros Hf. rewrite map_map.
  rewrite (map_ext _ (fun _ => b)) by (intros i; apply Hf).
  now rewrite map_const.
Qed.

Lemma flat_history_field {B : Type} (f : Bar N -> B) (b : B) n (p : N) v w :
  (forall day, f (plain_bar day p v w) = b) ->
  map f (flat_history n p v w) = repeat b n.
Proof.
  intros Hf. unfold flat_history.
  rewrite constant_field with (b := b) by (intros i; apply Hf).
  now rewrite length_seq.
Qed.

Lemma rising_history_field {B : Type} (f : Bar N -> B) (b : B) v w :
  (forall day p, f (plain_bar day p v w) = b) ->
  map f (rising_history v w) = repeat b 60.
Proof.
  intros Hf. unfold rising_history.
  now rewrite constant_field with (b := b) by (intros i; apply Hf).
Qed.

Lemma numbers_repeat_some (x : N) n : numbers (repeat (Some x) n) = repeat x n.
Proof. induction n as [|n IH]; cbn; [reflexivity|now rewrite IH]. Qed.

Lemma numbers_repeat_none n : numbers (repeat (@None N) n) = [].
Proof. induction n as [|n IH]; cbn; [reflexivity|exact IH]. Qed.

Lemma flat_closes n (p : N) v w :
  numbers (map c (flat_history n p v w)) = repeat p n.
Proof.
  rewrite flat_history_field with (b := Some p) by reflexivity.
  apply numbers_repeat_some.
Qed.

Lemma flat_close_at n (p : N) v w i :
  i < n -> close_at (flat_history n p v w) i = Some p.
Proof.
  intros Hi. rewrite close_at_map.
  rewrite flat_history_field with (b := Some p) by reflexivity.
  rewrite nth_error_repeat by exact Hi. reflexivity.
Qed.

Lemma flat_hlc n (p : N) v w :
  map (fun x => mkHLC (h x) (l x) (c x)) (flat_history n p v w)
  = repeat (mkHLC p p (Some p)) n.
Proof. now apply flat_history_field. Qed.
End FlatHistory.

(* ================================================================= *)
(** ** Exact arithmetic                                                *)

Section ExactEngine.
Variable sqrtQc : Qc -> Qc.
Hypothesis sqrt0 : sqrtQc (Q2Qc 0) = Q2Qc 0.
Local Abbreviation E := (Exact.number sqrtQc).
Local Hint Extern 0 (JsNumber Qc) => exact E : typeclass_instances.
Local Open Scope Qc_scope.

Lemma exact_ofNat_S (n : nat) :
  Exact.ofZ (Z.of_nat (S n)) = Exact.ofZ (Z.of_nat n) + 1.
Proof.
  apply Qc_is_canon. unfold Exact.ofZ, Qcplus, Q2Qc. cbn [this].
  rewrite !Qred_correct, Nat2Z.inj_succ. unfold Z.succ.
  rewrite inject_Z_plus. reflexivity.
Qed.

Lemma exact_ofNat_pos (n : nat) : (0 < n)%nat -> Exact.ofZ (Z.of_nat n) <> 0.
Proof.
  intros Hn E0. apply (f_equal this) in E0.
  unfold Exact.ofZ, Q2Qc in E0. cbn [this] in E0.
  assert (Q : (inject_Z (Z.of_nat n) == 0)%Q)
    by (rewrite <- (Qred_correct (inject_Z (Z.of_nat n))), E0; reflexivity).
  unfold Qeq in Q. cbn in Q. lia.
Qed.

Lemma exact_fold_add_repeat (v a : Qc) (n : nat) :
  fold_left Qcplus (repeat v n) a = a + Exact.ofZ (Z.of_nat n) * v.
Proof.
  revert a. induction n as [|n IH]; intros a.
  - cbn [repeat fold_left]. change (Exact.ofZ (Z.of_nat 0)) with 0. ring.
  - cbn [repeat fold_left]. rewrite IH, exact_ofNat_S. ring.
Qed.

(** The mean of [n] copies of [v] is [v]. *)
Lemma exact_mean_repeat (v : Qc) (n : nat) :
  (0 < n)%nat -> sum (H:=E) (repeat v n) / ofNat (H:=E) n = v.
Proof.
  intros Hn. unfold sum. exact_ops.
  rewrite exact_fold_add_repeat. change (Exact.ofZ 0) with 0.
  field. now apply exact_ofNat_pos.
Qed.

(** Blending a value into itself leaves it unchanged. *)
Lemma exact_blend_repeat (p k : Qc) (m : nat) :
  fold_left (fun e x => (x * k + e * (ofZ (JsNumber:=E) 1 - k))%js) (repeat p m) p = p.
Proof.
  induction m as [|m IH]; [reflexivity|]. cbn [repeat fold_left].
  replace ((p * k + p * (ofZ (JsNumber:=E) 1 - k))%js) with p; [exact IH|].
  exact_ops. change (Exact.ofZ 1) with 1. ring.
Qed.

Lemma exact_ema_flat (p : Qc) (k n : nat) :
  (0 < k)%nat -> (k <= n)%nat -> ema (H:=E) (repeat p n) k = Some p.
Proof.
  intros Hk Hn. rewrite ema_available by (rewrite repeat_length; exact Hn).
  rewrite skipn_repeat, (firstn_repeat _ Hn), (exact_mean_repeat _ Hk).
  now rewrite exact_blend_repeat.
Qed.

Lemma exact_variance_repeat (v : Qc) (n : nat) :
  variance (H:=E) (repeat v n) v n = 0.
Proof.
  unfold variance.
  assert (F : forall m, fold_left (fun a b => (a + (b - v) * (b - v))%js)
                          (repeat v m) (ofZ (JsNumber:=E) 0) = 0).
  { induction m as [|m IH]; [reflexivity|]. cbn [repeat fold_left].
    replace ((ofZ (JsNumber:=E) 0 + (v - v) * (v - v))%js)
      with (ofZ (JsNumber:=E) 0); [exact IH|].
    exact_ops. change (Exact.ofZ 0) with 0. ring. }
  rewrite F. exact_ops. unfold Qcdiv. ring.
Qed.

(** The z-score of a window of equal values is [0]. *)
Lemma exact_zscore_flat (v : Qc) (n k : nat) :
  (0 < k)%nat -> (k <= n)%nat -> zscore (H:=E) (repeat v n) k = Some 0.
Proof.
  intros Hk Hn. unfold zscore.
  assert (G : (length (repeat v n) <? k)%nat = false)
    by (apply Nat.ltb_ge; rewrite repeat_length; exact Hn).
  rewrite G. cbv zeta. unfold slice_last.
  rewrite repeat_length, skipn_repeat.
  replace (n - (n - k))%nat with k by lia.
  rewrite (exact_mean_repeat _ Hk), exact_variance_repeat.
  change (sqrt (JsNumber:=E) 0) with (sqrtQc 0). rewrite sqrt0. reflexivity.
Qed.

Lemma exact_true_ranges_flat (p : Qc) (n : nat) (pc : option Qc) :
  pc = None \/ pc = Some p ->
  true_ranges (H:=E) pc (repeat (mkHLC p p (Some p)) n) = repeat 0 n.
Proof.
  revert pc. induction n as [|n IH]; intros pc Hpc; [reflexivity|].
  cbn [repeat true_ranges h_ l_ c_]. rewrite IH by (now right). f_equal.
  assert (Z0 : p - p = 0) by ring.
  destruct Hpc as [-> | ->]; unfold trueRange; exact_ops; rewrite Z0.
  - reflexivity.
  - qc_closed.
Qed.

Lemma exact_wilder_zero (m : nat) :
  fold_left (fun atr tr => ((atr * ofZ (JsNumber:=E) 13 + tr) / ofZ 14)%js)
            (repeat 0 m) 0 = 0.
Proof.
  induction m as [|m IH]; [reflexivity|]. cbn [repeat fold_left].
  replace (((0 * ofZ (JsNumber:=E) 13 + 0) / ofZ 14)%js) with 0; [exact IH|].
  exact_ops. qc_closed.
Qed.

Lemma exact_atr14_flat (p : Qc) (n : nat) :
  (15 <= n)%nat -> atr14 (H:=E) (repeat (mkHLC p p (Some p)) n) = Some 0.
Proof.
  intros Hn.
  pose proof (ExactFacts.lawful sqrtQc sqrt0) as Law.
  rewrite atr14_available by (rewrite repeat_length; exact Hn).
  rewrite exact_true_ranges_flat by (now left).
  rewrite skipn_repeat, firstn_repeat by lia.
  replace ((sum (H:=E) (repeat 0 14) / ofZ 14)%js) with 0
    by (unfold sum; exact_ops; qc_closed).
  now rewrite exact_wilder_zero.
Qed.

Lemma exact_truthy (p : Qc) : Exact.truthy p = true -> p <> 0.
Proof.
  unfold Exact.truthy, Qc_eq_bool. now destruct (Qc_eq_dec p 0).
Qed.

Lemma exact_ret_self (p : Qc) : ret_over (H:=E) (Some p) (Some p) = 0.
Proof.
  unfold ret_over. exact_ops. destruct (Exact.truthy p) eqn:T; [|reflexivity].
  cbn [andb]. apply exact_truthy in T. change (Exact.ofZ 1) with 1. now field.
Qed.

Lemma exact_spread_self (p : Qc) :
  (if negb (p === ofZ (JsNumber:=E) 0) then p / p - ofZ 1 else ofZ 0)%js = 0.
Proof.
  exact_ops. change (Exact.ofZ 0) with 0. unfold Qc_eq_bool.
  destruct (Qc_eq_dec p 0) as [|Hp]; [reflexivity|].
  cbn [negb]. change (Exact.ofZ 1) with 1. now field.
Qed.

Lemma exact_zero_over (p : Qc) :
  (if truthy (JsNumber:=E) p then Q2Qc 0 / p else ofZ 0)%js = 0.
Proof.
  exact_ops. destruct (Exact.truthy p); [|reflexivity]. unfold Qcdiv. ring.
Qed.

(** Flat volume or open interest, present or absent, has z-score [0]. *)
Lemma exact_flat_zscore (f : Bar Qc -> option Qc) (u : option Qc) n (p : Qc) v w :
  (forall day, f (plain_bar day p v w) = u) -> (60 <= n)%nat ->
  match zscore (H:=E) (numbers (map f (flat_history n p v w))) 60 with
  | Some z => z
  | None => ofZ 0
  end = 0.
Proof.
  intros Hf Hn. rewrite flat_history_field with (b := u) by exact Hf.
  destruct u as [x|].
  - rewrite numbers_repeat_some, exact_zscore_flat by lia. reflexivity.
  - rewrite numbers_repeat_none. reflexivity.
Qed.

(** In exact arithmetic a flat series of at least 60 bars scores [0],
    holds, and has confidence 45. *)
Lemma exact_flat_score (n : nat) (p : Qc) (v w : option Qc) :
  (60 <= n)%nat ->
  let r := computeScore (H:=E) (flat_history n p v w) in
  score r = 0 /\ verdict r = HOLD /\ confidence r = Exact.ofZ 45.
Proof.
  intros Hn r. subst r. unfold computeScore.
  rewrite flat_history_length, (proj2 (Nat.ltb_ge n 60) Hn). cbv zeta.
  rewrite flat_closes, flat_hlc, !exact_ema_flat, exact_atr14_flat by lia.
  rewrite !flat_close_at by lia.
  rewrite (@exact_flat_zscore vol v) by (reflexivity || exact Hn).
  rewrite (@exact_flat_zscore oi w) by (reflexivity || exact Hn).
  rewrite exact_ret_self, exact_spread_self, exact_zero_over.
  cbn [score verdict confidence].
  split; [|split].
  - apply Qc_is_canon. vm_compute. reflexivity.
  - vm_compute. reflexivity.
  - apply Qc_is_canon. vm_compute. reflexivity.
Qed.

Lemma exact_rising_zscore (f : Bar Qc -> option Qc) (u : option Qc) v w :
  (forall day p, f (plain_bar day p v w) = u) ->
  match zscore (H:=E) (numbers (map f (rising_history v w))) 60 with
  | Some z => z
  | None => ofZ 0
  end = 0.
Proof.
  intros Hf. rewrite rising_history_field with (b := u) by exact Hf.
  destruct u as [x|].
  - rewrite numbers_repeat_some, exact_zscore_flat by lia. reflexivity.
  - rewrite numbers_repeat_none. reflexivity.
Qed.

(** In exact arithmetic the rising series has a positive trend and
    momentum, but its score stays below the BUY threshold. *)
Lemma exact_rising_score (v w : option Qc) :
  let r := computeScore (H:=E) (rising_history v w) in
  exists b,
    signals r = Bundle b
    /\ Exact.ltb 0 (trend b) = true
    /\ Exact.ltb 0 (momentum b) = true
    /\ score r = Q2Qc (1339683357 # 18553819340)
    /\ verdict r = HOLD
    /\ confidence r = Exact.ofZ 41.
Proof.
  intros r. subst r. unfold computeScore.
  change (length (rising_history (H:=E) v w)) with 60%nat.
  change (60 <? 60)%nat with false. cbv zeta.
  rewrite (@exact_rising_zscore vol v) by reflexivity.
  rewrite (@exact_rising_zscore oi w) by reflexivity.
  eexists. split; [reflexivity|].
  cbn [trend momentum score verdict confidence].
  split; [|split; [|split; [|split]]].
  - vm_compute. reflexivity.
  - vm_compute. reflexivity.
  - apply Qc_is_canon. vm_compute. reflexivity.
  - vm_compute. reflexivity.
  - apply Qc_is_canon. vm_compute. reflexivity.
Qed.

End ExactEngine.

(* ================================================================= *)
(** ** The scenarios of the specification, on both carriers            *)

Section Binary64Scenarios.
Import Binary64.
Local Open Scope float_scope.

Lemma rising64_result :
  let r := computeScore Sample.rising in
  exists b,
    signals r = Bundle b
    /\ (0 <? trend b) = true
    /\ (0 <? momentum b) = true
    /\ score r = 0.072205260407586347
    /\ verdict r = HOLD
    /\ confidence r = 41.
Proof.
  eexists. split; [vm_compute; reflexivity|].
  cbn [trend momentum].
  split; [|split; [|split; [|split]]]; vm_compute; reflexivity.
Qed.

Lemma flat64_100_result :
  let r := computeScore (Sample.flat 100) in
  score r = 0 /\ verdict r = HOLD /\ confidence r = 45.
Proof. split; [|split]; vm_compute; reflexivity. Qed.

Lemma flat64_2000_result :
  let r := computeScore (Sample.flat 2000) in
  exists b,
    signals r = Bundle b
    /\ ema20 b = Some 2000
    /\ ema50 b = Some 2000.0000000000002
    /\ trend b = -1.1102230246251565e-15
    /\ momentum b = 0
    /\ participation b = 0
    /\ score r = -5.5511151231257827e-16
    /\ verdict r = HOLD
    /\ confidence r = 28.
Proof.
  eexists. split; [vm_compute; reflexivity|].
  cbn [ema20 ema50 trend momentum participation].
  repeat (split; [vm_compute; reflexivity|]). vm_compute. reflexivity.
Qed.

End Binary64Scenarios.

(* ================================================================= *)
(** ** Ingestion                                                       *)

Section IngestionClaims.
Context {N : Type} `{JsNumber N}.
Variable localeCompare : string -> string -> comparison.

Local Abbreviation sort := (sort_by_date localeCompare).
Local Abbreviation run_main := (main localeCompare).

Lemma count_date_app (d : string) (xs ys : list (Bar N)) :
  count_date d (xs ++ ys) = count_date d xs + count_date d ys.
Proof. unfold count_date. now rewrite filter_app, length_app. Qed.

Lemma has_date_count (d : string) (history : list (Bar N)) :
  has_date d history = negb (count_date d history =? 0).
Proof.
  unfold has_date, count_date.
  induction history as [|x r IH]; cbn; [reflexivity|].
  destruct (date x =? d)%string; cbn; [reflexivity|exact IH].
Qed.

Lemma insert_by_date_count (d : string) (x : Bar N) (xs : list (Bar N)) :
  count_date d (insert_by_date localeCompare x xs) = count_date d (x :: xs).
Proof.
  induction xs as [|y r IH]; [reflexivity|]. cbn [insert_by_date].
  destruct (localeCompare (date x) (date y)); try reflexivity.
  change (count_date d ([y] ++ insert_by_date localeCompare x r)
          = count_date d ([x] ++ [y] ++ r)).
  rewrite !count_date_app, IH.
  change (x :: r) with ([x] ++ r). rewrite count_date_app. lia.
Qed.

Lemma sort_by_date_count (d : string) (xs : list (Bar N)) :
  count_date d (sort xs) = count_date d xs.
Proof.
  induction xs as [|x r IH]; [reflexivity|]. cbn [sort_by_date].
  rewrite insert_by_date_count.
  change (count_date d ([x] ++ sort r) = count_date d ([x] ++ r)).
  now rewrite !count_date_app, IH.
Qed.

Lemma insert_by_date_length (x : Bar N) (xs : list (Bar N)) :
  length (insert_by_date localeCompare x xs) = S (length xs).
Proof.
  induction xs as [|y r IH]; [reflexivity|]. cbn [insert_by_date].
  destruct (localeCompare (date x) (date y)); cbn; try reflexivity.
  now rewrite IH.
Qed.

Lemma sort_by_date_length (xs : list (Bar N)) : length (sort xs) = length xs.
Proof.
  induction xs as [|x r IH]; [reflexivity|]. cbn [sort_by_date].
  now rewrite insert_by_date_length, IH.
Qed.

(** A non-empty history is scored and saved. *)
Lemma score_and_save_saved (run : Run N) (st : Store N) (history : list (Bar N)) :
  history <> [] ->
  exists latest,
    score_and_save localeCompare run st history
    = Saved (saveLatest (latestJson latest (computeScore (sort history))
                                    (now_latest run)) st)
            (sort history).
Proof.
  intros Hne. unfold score_and_save.
  destruct (nth_error (sort history) (length (sort history) - 1)) as [x|] eqn:E.
  - now exists x.
  - apply nth_error_None in E. rewrite sort_by_date_length in E.
    destruct history; [congruence|cbn in E; lia].
Qed.

(** Two runs over the same in-memory history save snapshots that differ
    only by their stamp. *)
Lemma score_and_save_restamp (r1 r2 : Run N) (st1 st2 : Store N)
      (history : list (Bar N)) (a1 a2 : Store N) (h1 h2 : list (Bar N)) :
  score_and_save localeCompare r1 st1 history = Saved a1 h1 ->
  score_and_save localeCompare r2 st2 history = Saved a2 h2 ->
  h2 = h1
  /\ history_file a1 = history_file st1
  /\ history_file a2 = history_file st2
  /\ exists s1,
       latest_file a1 = Some s1
       /\ latest_file a2 = Some (restamp (now_latest r2) s1).
Proof.
  unfold score_and_save.
  destruct (nth_error (sort history) (length (sort history) - 1)) as [x|];
    [|discriminate].
  intros E1 E2. injection E1 as <- <-. injection E2 as <- <-.
  repeat split. eexists. split; reflexivity.
Qed.

Lemma accepted_main (run : Run N) (st : Store N) :
  accepted run = true ->
  exists bar bo bh bl bc,
    run_main run st
    = if negb (has_date (run_date run) (history_file st)) then
        score_and_save localeCompare run
          (appendHistory (record run bar bo bh bl bc) st)
          (history_file st ++ [record run bar bo bh bl bc])
      else score_and_save localeCompare run st (history_file st).
Proof.
  unfold accepted, main, loadHistory. intros Ha.
  apply andb_true_iff in Ha. destruct Ha as [Hin Hbar].
  apply orb_true_iff in Hin.
  assert (G : negb (truthy_str (arg_file run)) && negb (truthy_str (arg_url run)) = false)
    by (destruct Hin as [-> | ->]; cbn; [reflexivity|apply andb_false_r]).
  rewrite G.
  destruct (gold_bar run) as [bar|]; [|discriminate].
  destruct (p_o bar) as [bo|]; [|discriminate].
  destruct (p_h bar) as [bh|]; [|discriminate].
  destruct (p_l bar) as [bl|]; [|discriminate].
  destruct (p_c bar) as [bc|]; [|discriminate].
  exists bar, bo, bh, bl, bc. reflexivity.
Qed.

Lemma record_date (run : Run N) bar bo bh bl bc :
  date (record run bar bo bh bl bc) = run_date run.
Proof. reflexivity. Qed.

(** One accepted run: the log gains a record for the run's date exactly
    when it had none, and a snapshot is saved. *)
Lemma accepted_run_saved (run : Run N) (st : Store N) :
  accepted run = true ->
  count_date (run_date run) (history_file st) <= 1 ->
  exists st' mem,
    run_main run st = Saved st' mem
    /\ mem = sort (history_file st')
    /\ count_date (run_date run) (history_file st') = 1
    /\ (has_date (run_date run) (history_file st) = true ->
        history_file st' = history_file st).
Proof.
  intros Ha Hc. destruct (accepted_main run st Ha) as (bar & bo & bh & bl & bc & Em).
  rewrite Em. clear Em.
  pose proof (has_date_count (run_date run) (history_file st)) as Hd.
  destruct (has_date (run_date run) (history_file st)) eqn:Ex; cbn [negb].
  - assert (Hne : history_file st <> [])
      by (intros E0; rewrite E0 in Ex; discriminate).
    destruct (score_and_save_saved run st Hne) as (latest & ->).
    do 2 eexists. split; [reflexivity|]. cbn [saveLatest history_file].
    repeat split.
    symmetry in Hd. apply negb_true_iff, Nat.eqb_neq in Hd. lia.
  - assert (Hne : history_file st ++ [record run bar bo bh bl bc] <> [])
      by (intros E0; apply app_eq_nil in E0; destruct E0; discriminate).
    destruct (score_and_save_saved run
                (appendHistory (record run bar bo bh bl bc) st) Hne)
      as (latest & ->).
    do 2 eexists. split; [reflexivity|].
    cbn [saveLatest appendHistory history_file].
    repeat split; try discriminate.
    rewrite count_date_app. unfold count_date at 2. cbn [filter].
    rewrite record_date, String.eqb_refl. cbn [length].
    symmetry in Hd. apply negb_false_iff, Nat.eqb_eq in Hd. lia.
Qed.

Lemma accepted_run_shape (run : Run N) (st : Store N) :
  accepted run = true ->
  exists stm,
    run_main run st = score_and_save localeCompare run stm (history_file stm)
    /\ (has_date (run_date run) (history_file st) = true -> stm = st)
    /\ count_date (run_date run) (history_file stm)
       = if has_date (run_date run) (history_file st)
         then count_date (run_date run) (history_file st)
         else S (count_date (run_date run) (history_file st)).
Proof.
  intros Ha. destruct (accepted_main run st Ha) as (bar & bo & bh & bl & bc & Em).
  rewrite Em. clear Em.
  destruct (has_date (run_date run) (history_file st)); cbn [negb].
  - exists st. repeat split.
  - exists (appendHistory (record run bar bo bh bl bc) st).
    cbn [appendHistory history_file]. repeat split; try discriminate.
    rewrite count_date_app. unfold count_date at 2. cbn [filter].
    rewrite record_date, String.eqb_refl. cbn [length]. lia.
Qed.

Lemma count_one_has_date (d : string) (history : list (Bar N)) :
  count_date d history = 1 -> has_date d history = true.
Proof. intros Hc. now rewrite has_date_count, Hc. Qed.

Lemma count_le_one_after (d : string) (history : list (Bar N)) :
  count_date d history <= 1 ->
  (if has_date d history then count_date d history
   else S (count_date d history)) = 1.
Proof.
  intros Hc. rewrite has_date_count.
  destruct (count_date d history =? 0) eqn:E; cbn [negb].
  - apply Nat.eqb_eq in E. lia.
  - apply Nat.eqb_neq in E. lia.
Qed.

(** C2 (amended). Two accepted runs for the same date, started from a log
    with at most one record for that date: both save; the second appends
    nothing; the log and the in-memory history end with exactly one record
    for the date; and the second snapshot is the first one with a new
    [updated] stamp. *)
Theorem same_date_twice (st0 : Store N) (r1 r2 : Run N) :
  accepted r1 = true ->
  accepted r2 = true ->
  run_date r2 = run_date r1 ->
  count_date (run_date r1) (history_file st0) <= 1 ->
  exists st1 h1 st2 h2 s1,
    run_main r1 st0 = Saved st1 h1
    /\ run_main r2 st1 = Saved st2 h2
    /\ history_file st2 = history_file st1
    /\ count_date (run_date r1) (history_file st2) = 1
    /\ h2 = h1
    /\ count_date (run_date r1) h2 = 1
    /\ latest_file st1 = Some s1
    /\ latest_file st2 = Some (restamp (now_latest r2) s1).
Proof.
  intros A1 A2 Hd Hc.
  destruct (accepted_run_shape r1 st0 A1) as (stm & E1 & _ & C1).
  rewrite (count_le_one_after _ _ Hc) in C1.
  assert (Hne : history_file stm <> [])
    by (intros E0; rewrite E0 in C1; discriminate).
  destruct (score_and_save_saved r1 stm Hne) as (latest & S1).
  set (st1 := saveLatest (latestJson latest (computeScore (sort (history_file stm)))
                                     (now_latest r1)) stm) in *.
  assert (F1 : history_file st1 = history_file stm) by reflexivity.
  destruct (accepted_run_shape r2 st1 A2) as (stm2 & E2 & Same & _).
  rewrite Hd, F1 in Same. specialize (Same (count_one_has_date _ _ C1)).
  subst stm2. rewrite F1 in E2.
  destruct (score_and_save_saved r2 st1 Hne) as (latest2 & S2).
  destruct (score_and_save_restamp _ _ _ _ _ S1 S2) as (Hh & _ & F2 & s1 & L1 & L2).
  exists st1, (sort (history_file stm)).
  eexists. exists (sort (history_file stm)), s1.
  split; [now rewrite E1, S1|].
  split; [rewrite E2, S2; reflexivity|].
  split; [exact F2|].
  split; [rewrite F2, F1; exact C1|].
  split; [reflexivity|].
  split; [now rewrite sort_by_date_count|].
  split; [exact L1|exact L2].
Qed.

End IngestionClaims.

(* ================================================================= *)
(** ** Claims settled on the scenarios                                 *)

Section LawfulClaims.
Context {N : Type} `{JsNumber N} `{!LawfulNumber N}.
Local Open Scope js_scope.

Lemma zscore_zero_variance (values : list N) (lookback : nat) :
  lookback <= length values ->
  (variance (slice_last values lookback)
            (sum (slice_last values lookback) / ofNat lookback) lookback
     === ofZ 0) = true ->
  zscore values lookback = Some (ofZ 0).
Proof.
  intros Hl Hv. unfold zscore.
  rewrite (proj2 (Nat.ltb_ge _ _) Hl). cbv zeta.
  now rewrite (sqrt_zero _ Hv).
Qed.

(** C7 (amended). Below the required length every indicator is
    unavailable: [sma], [ema] and [zscore] below [period] values, [atr14]
    below 15 bars; each returns [null], so neither NaN nor Infinity nor an
    exception.  And [zscore] returns exactly [0] whenever the variance it
    computes over the trailing window is zero. *)
Theorem unavailable_or_zero :
  (forall (values : list N) (period : nat),
      length values < period ->
      sma values period = None
      /\ ema values period = None
      /\ zscore values period = None)
  /\ (forall bars : list (HLC N), length bars < 15 -> atr14 bars = None)
  /\ (forall (values : list N) (lookback : nat),
         lookback <= length values ->
         (variance (slice_last values lookback)
                   (sum (slice_last values lookback) / ofNat lookback) lookback
            === ofZ 0) = true ->
         zscore values lookback = Some (ofZ 0)).
Proof.
  split; [|split].
  - intros values period Hs.
    now rewrite (sma_short _ Hs), (ema_short _ Hs), (zscore_short _ Hs).
  - exact atr14_short.
  - exact zscore_zero_variance.
Qed.

End LawfulClaims.

(* ================================================================= *)
(** ** A bar that does not move, on doubles                            *)

Module Binary64Flat.
Import Binary64.
Local Open Scope float_scope.

(** A positive finite double is a positive mantissa and an exponent. *)
Lemma positive_finite (p : float) :
  (0 <? p) = true -> (p <? infinity) = true ->
  exists m e, Prim2SF p = S754_finite false m e.
Proof.
  rewrite !ltb_spec. unfold SFltb.
  change (Prim2SF 0) with (S754_zero false).
  change (Prim2SF infinity) with (S754_infinity false).
  destruct (Prim2SF p) as [z|i| |sg m e];
    cbv beta iota delta [SFcompare]; try discriminate.
  - destruct i; discriminate.
  - destruct sg; [discriminate|]. intros _ _. now exists m, e.
Qed.

Lemma of_spec (x y : float) (s : spec_float) :
  Prim2SF x = s -> SF2Prim s = y -> x = y.
Proof. intros <- <-. symmetry. apply SF2Prim_Prim2SF. Qed.

(** [p - p] is [+0]. *)
Lemma sub_self (p : float) (m : positive) (e : Z) :
  Prim2SF p = S754_finite false m e -> p - p = 0.
Proof.
  intros Hp. apply of_spec with (s := S754_zero false); [|reflexivity].
  rewrite sub_spec, Hp.
  unfold SF64sub, SFsub. cbv zeta. rewrite Z.sub_diag. reflexivity.
Qed.

Lemma div_eucl_shift (m : positive) :
  Z.div_eucl (Z.shiftl (Zpos m) 53) (Zpos m) = (9007199254740992%Z, 0%Z).
Proof.
  rewrite Z.shiftl_mul_pow2 by lia.
  pose proof (Z.div_eucl_eq (Z.pos m * 2 ^ 53) (Z.pos m)) as E.
  pose proof (Z_div_mult_full (2 ^ 53) (Z.pos m)) as D.
  pose proof (Z_mod_mult (2 ^ 53) (Z.pos m)) as M.
  unfold Z.div, Z.modulo in *.
  rewrite (Z.mul_comm (Z.pos m)) .
  destruct (Z.div_eucl (2 ^ 53 * Z.pos m) (Z.pos m)) as [q r].
  cbn [fst snd] in *. rewrite D, M by lia. reflexivity.
Qed.

(** [p / p] is [1]. *)
Lemma div_self (p : float) (m : positive) (e : Z) :
  Prim2SF p = S754_finite false m e -> p / p = 1.
Proof.
  intros Hp.
  apply of_spec with (s := S754_finite false 4503599627370496 (-52));
    [|reflexivity].
  rewrite div_spec, Hp.
  unfold SF64div, SFdiv, SFdiv_core_binary. cbv zeta.
  rewrite !Z.sub_diag.
  change (Z.min (fexp prec emax 0) 0) with (-53)%Z.
  change (0 - -53)%Z with 53%Z. cbv iota.
  rewrite div_eucl_shift.
  assert (L : new_location (Z.pos m) 0 = loc_Exact).
  { unfold new_location. now destruct (Z.even (Z.pos m)). }
  rewrite L. vm_compute. reflexivity.
Qed.

(** [0 / p] is [+0]. *)
Lemma zero_div (p : float) (m : positive) (e : Z) :
  Prim2SF p = S754_finite false m e -> 0 / p = 0.
Proof.
  intros Hp. apply of_spec with (s := S754_zero false); [|reflexivity].
  rewrite div_spec, Hp. reflexivity.
Qed.

Lemma truthy_positive (p : float) (m : positive) (e : Z) :
  Prim2SF p = S754_finite false m e -> truthy p = true.
Proof.
  intros Hp. unfold truthy, is_zero, is_nan.
  rewrite !FloatAxioms.eqb_spec, Hp. unfold SFeqb.
  change (Prim2SF zero) with (S754_zero false).
  cbv beta iota delta [SFcompare].
  rewrite Z.compare_refl, Pos.compare_cont_refl. reflexivity.
Qed.


End Binary64Flat.

Section FlatBars.
Local Open Scope float_scope.

Lemma class_sub_self (p : float) (m : positive) (e : Z) :
  Prim2SF p = S754_finite false m e -> (p - p)%js = 0.
Proof. exact (@Binary64Flat.sub_self p m e). Qed.

Lemma class_div_self (p : float) (m : positive) (e : Z) :
  Prim2SF p = S754_finite false m e -> (p / p)%js = 1.
Proof. exact (@Binary64Flat.div_self p m e). Qed.

Lemma class_zero_div (p : float) (m : positive) (e : Z) :
  Prim2SF p = S754_finite false m e -> (0 / p)%js = 0.
Proof. exact (@Binary64Flat.zero_div p m e). Qed.

Lemma class_truthy (p : float) (m : positive) (e : Z) :
  Prim2SF p = S754_finite false m e -> truthy p = true.
Proof. exact (@Binary64Flat.truthy_positive p m e). Qed.

(** A bar that does not move has no true range. *)
Lemma flat_true_ranges (p : float) (m : positive) (e : Z) (n : nat)
      (pc : option float) :
  Prim2SF p = S754_finite false m e ->
  pc = None \/ pc = Some p ->
  true_ranges pc (repeat (mkHLC p p (Some p)) n) = repeat 0 n.
Proof.
  intros Hp. revert pc. induction n as [|n IH]; intros pc Hpc; [reflexivity|].
  cbn [repeat true_ranges h_ l_ c_]. rewrite IH by (now right). f_equal.
  destruct Hpc as [-> | ->]; unfold trueRange; rewrite !(@class_sub_self _ _ _ Hp);
    reflexivity.
Qed.

Lemma wilder_zero (k : nat) :
  fold_left (fun atr tr => ((atr * ofZ 13 + tr) / ofZ 14)%js) (repeat 0 k) 0 = 0.
Proof.
  induction k as [|k IH]; [reflexivity|]. cbn [repeat fold_left].
  replace (((0 * ofZ 13 + 0) / ofZ 14)%js) with 0 by reflexivity. exact IH.
Qed.

Lemma flat_atr14 (p : float) (m : positive) (e : Z) (n : nat) :
  Prim2SF p = S754_finite false m e -> (15 <= n)%nat ->
  atr14 (repeat (mkHLC p p (Some p)) n) = Some 0.
Proof.
  intros Hp Hn.
  rewrite (@atr14_available float _ Binary64Facts.lawful)
    by (rewrite repeat_length; exact Hn).
  rewrite (@flat_true_ranges _ _ _ n _ Hp) by (now left).
  rewrite skipn_repeat, firstn_repeat by lia.
  replace ((sum (repeat 0 14) / ofZ 14)%js) with 0 by reflexivity.
  now rewrite wilder_zero.
Qed.

Lemma flat_return (p : float) (m : positive) (e : Z) :
  Prim2SF p = S754_finite false m e -> ret_over (Some p) (Some p) = 0.
Proof.
  intros Hp. unfold ret_over. rewrite (@class_truthy _ _ _ Hp). cbn [andb].
  rewrite (@class_div_self _ _ _ Hp). reflexivity.
Qed.

End FlatBars.

Section ScenarioClaims.
Local Open Scope float_scope.

(** C1 (amended). On the 60-bar series whose closes rise linearly from
    2000 to 2100, whatever the flat volume and open interest, [trend] and
    [momentum] are positive; and when each of the two z-scores comes out
    [0], [1] or [-1] (sixty copies of 1000 give [0], of 0.7 give [-1], of
    0.1 give [1]), the score is below the 0.25 threshold, so the verdict
    is HOLD, with a positive confidence. *)
Theorem rising_series_scores :
  forall v w : option float,
    let r := computeScore (rising_history v w) in
    exists b,
      signals r = Bundle b
      /\ (0 <? trend b) = true
      /\ (0 <? momentum b) = true
      /\ (vol_z60 b = 0 \/ vol_z60 b = 1 \/ vol_z60 b = -1 ->
          oi_z60 b = 0 \/ oi_z60 b = 1 \/ oi_z60 b = -1 ->
          (score r <? 0.25) = true
          /\ verdict r = HOLD
          /\ (0 <? confidence r) = true).
Proof.
  intros v w r. subst r. unfold computeScore.
  change (length (rising_history v w)) with 60%nat.
  change (60 <? 60)%nat with false. cbv zeta.
  eexists. split; [reflexivity|].
  cbn [trend momentum vol_z60 oi_z60 score verdict confidence].
  split; [vm_compute; reflexivity|]. split; [vm_compute; reflexivity|].
  intros [Hv|[Hv|Hv]] [Hw|[Hw|Hw]]; rewrite Hv, Hw;
    (split; [|split]); vm_compute; reflexivity.
Qed.

(** C10 (amended). On every flat series of at least 60 bars at a positive
    finite price, [momentum] and the ATR share of the price are [0]; and
    when [trend] and [participation] come out [0] as well, the score is
    [0], the verdict HOLD and the confidence 45: the zero sub-signals
    count as matching the sign of the zero score. *)
Theorem flat_series_confidence :
  forall (n : nat) (p : float) (v w : option float),
    (60 <= n)%nat -> (0 <? p) = true -> (p <? infinity) = true ->
    let r := computeScore (flat_history n p v w) in
    exists b,
      signals r = Bundle b
      /\ momentum b = 0
      /\ atr_pct b = 0
      /\ (trend b = 0 -> participation b = 0 ->
          score r = 0 /\ verdict r = HOLD /\ confidence r = 45).
Proof.
  intros n p v w Hn H0 Hinf r. subst r.
  destruct (@Binary64Flat.positive_finite p H0 Hinf) as (m & e & Hp).
  unfold computeScore.
  rewrite flat_history_length, (proj2 (Nat.ltb_ge n 60) Hn). cbv zeta.
  rewrite flat_hlc, (@flat_atr14 _ _ _ _ Hp) by lia.
  rewrite !flat_close_at by lia.
  rewrite (@flat_return _ _ _ Hp), (@class_truthy _ _ _ Hp),
    (@class_zero_div _ _ _ Hp).
  eexists. split; [reflexivity|].
  cbn [momentum atr_pct trend participation score verdict confidence].
  split; [reflexivity|]. split; [reflexivity|].
  intros Ht Hq. rewrite Ht, Hq.
  split; [|split]; vm_compute; reflexivity.
Qed.

End ScenarioClaims.

(* ================================================================= *)
(** ** Where the code departs from the claims                          *)

Section Departures.
Local Open Scope float_scope.

(** C1 as stated fails: the rising series is not a BUY. *)
Lemma rising_series_not_buy : verdict (computeScore Sample.rising) <> BUY.
Proof. vm_compute. discriminate. Qed.

(** C2 as stated fails: two runs for the same date, one hour apart,
    leave one record in the log but write different snapshot files. *)
Lemma same_date_snapshots_differ :
  exists st1 h1 st2 h2,
    main String.compare Sample.run_noon Sample.empty_store = Saved st1 h1
    /\ main String.compare Sample.run_later st1 = Saved st2 h2
    /\ history_file st2 = history_file st1
    /\ option_map (@s_updated float) (latest_file st1)
       = Some "2026-02-18T12:00:00.005Z"%string
    /\ option_map (@s_updated float) (latest_file st2)
       = Some "2026-02-18T13:00:00.005Z"%string
    /\ latest_file st1 <> latest_file st2.
Proof.
  do 4 eexists.
  split; [vm_compute; reflexivity|].
  split; [vm_compute; reflexivity|].
  split; [reflexivity|].
  split; [reflexivity|].
  split; [reflexivity|].
  intros E. apply (f_equal (option_map (@s_updated float))) in E.
  vm_compute in E. discriminate E.
Qed.

(** C7 as stated fails: sixty copies of 0.1 have no spread, yet the
    computed mean is not 0.1, the computed deviation is not 0, and the
    z-score is 1. *)
Lemma zscore_equal_window_not_zero :
  zscore (repeat 0.1 60) 60 = Some 1
  /\ zscore (repeat 0.1 60) 60 <> Some 0.
Proof.
  assert (E : zscore (repeat 0.1 60) 60 = Some 1) by (vm_compute; reflexivity).
  split; [exact E|].
  rewrite E. intros F.
  apply (f_equal (fun z => match z with
                           | Some x => PrimFloat.eqb x 0
                           | None => false
                           end)) in F.
  vm_compute in F. discriminate F.
Qed.

(** C8 as stated fails: when the last close reads [0] the code answers
    [0], not [close[last] / close[length-6] - 1], which is [-1]. *)
Lemma ret5d_zero_close :
  (60 <= length Sample.zero_close)%nat
  /\ exists b,
       signals (computeScore Sample.zero_close) = Bundle b
       /\ close_at Sample.zero_close (length Sample.zero_close - 6) = Some 2000
       /\ close_at Sample.zero_close (length Sample.zero_close - 1) = Some 0
       /\ ret_5d b = 0
       /\ 0 / 2000 - 1 = -1
       /\ ret_5d b <> 0 / 2000 - 1.
Proof.
  split; [vm_compute; lia|].
  eexists. split; [vm_compute; reflexivity|].
  split; [vm_compute; reflexivity|]. split; [vm_compute; reflexivity|].
  cbn [ret_5d]. split; [reflexivity|]. split; [reflexivity|].
  intros F. apply (f_equal (fun x => PrimFloat.eqb x 0)) in F.
  vm_compute in F. discriminate F.
Qed.

(** Why C1 and C10 name the z-scores: on doubles the z-score of a flat
    column need not be [0].  With volume 0.7 and open interest 0.3 the
    rising series has a negative score and confidence 32; a flat series at
    100 with volume 0.1 has a positive score and confidence 32. *)
Lemma flat_columns_with_residue :
  map (fun v => zscore (repeat v 60) 60) [1000; 0.7; 0.3; 0.1]
  = [Some 0; Some (-1); Some (-1); Some 1]
  /\ (let r := computeScore (rising_history (Some 0.7) (Some 0.3)) in
   (score r <? 0) = true /\ verdict r = HOLD /\ confidence r = 32)
  /\ (let r := computeScore (flat_history 60 100 (Some 0.1) (Some 500)) in
      (0 <? score r) = true /\ verdict r = HOLD /\ confidence r = 32).
Proof. split; [|repeat split]; vm_compute; reflexivity. Qed.

(** C10 as stated fails: at a flat price of 2000 the two averages round
    apart, the score is a negative rounding residue, and the confidence is
    28. *)
Lemma flat_2000_confidence_28 :
  let r := computeScore (Sample.flat 2000) in
  score r = -5.5511151231257827e-16
  /\ verdict r = HOLD
  /\ confidence r = 28
  /\ ~ (score r = 0 /\ verdict r = HOLD /\ confidence r = 45).
Proof.
  destruct flat64_2000_result as (b & _ & _ & _ & _ & _ & _ & Hs & Hv & Hc).
  cbv zeta. rewrite Hs, Hv, Hc. repeat split.
  intros (_ & _ & F).
  apply (f_equal (fun x => PrimFloat.eqb x 45)) in F.
  vm_compute in F. discriminate F.
Qed.

(** The range does move the confidence (C9 leaves it free): widening
    every bar of the rising series by 50 takes it from 41 to 16. *)
Lemma confidence_depends_on_range :
  confidence (computeScore Sample.rising) = 41
  /\ confidence (computeScore Sample.rising_wide) = 16.
Proof. split; vm_compute; reflexivity. Qed.

End Departures.

(* ================================================================= *)
(** ** The theorems at concrete inputs                                 *)

Section Witnesses.
Local Open Scope float_scope.

Lemma sqrt_floor_zero : Exact.sqrt_floor (Q2Qc 0) = Q2Qc 0.
Proof. apply Qc_is_canon. vm_compute. reflexivity. Qed.

Lemma rising_series_scores_witness :
  (exists b,
     signals (computeScore Sample.rising) = Bundle b
     /\ vol_z60 b = 0 /\ oi_z60 b = 0
     /\ (0 <? trend b) = true
     /\ (0 <? momentum b) = true
     /\ (score (computeScore Sample.rising) <? 0.25) = true
     /\ verdict (computeScore Sample.rising) = HOLD
     /\ (0 <? confidence (computeScore Sample.rising)) = true)
  /\ (exists b,
        signals (computeScore (rising_history (Some 0.7) (Some 0.3))) = Bundle b
        /\ vol_z60 b = -1 /\ oi_z60 b = -1
        /\ verdict (computeScore (rising_history (Some 0.7) (Some 0.3))) = HOLD).
Proof.
  split.
  - destruct (@rising_series_scores (Some 1000) (Some 500))
      as (b & Hb & Ht & Hm & Hrest).
    assert (Hz : vol_z60 b = 0 /\ oi_z60 b = 0).
    { change (computeScore (rising_history (Some 1000) (Some 500)))
        with (computeScore Sample.rising) in Hb.
      vm_compute in Hb. injection Hb as <-. split; reflexivity. }
    destruct Hz as [Hv Hw].
    destruct (Hrest (or_introl Hv) (or_introl Hw)) as (Hs & Hd & Hc).
    exists b. repeat (split; [assumption|]). exact Hc.
  - destruct (@rising_series_scores (Some 0.7) (Some 0.3))
      as (b & Hb & _ & _ & Hrest).
    assert (Hz : vol_z60 b = -1 /\ oi_z60 b = -1).
    { cbv zeta in Hb. vm_compute in Hb. injection Hb as <-. split; reflexivity. }
    destruct Hz as [Hv Hw].
    destruct (Hrest (or_intror (or_intror Hv)) (or_intror (or_intror Hw)))
      as (_ & Hd & _).
    exists b. repeat (split; [assumption|]). exact Hd.
Defined.

Lemma same_date_twice_witness :
  exists st1 h1 st2 h2 s1,
    main String.compare Sample.run_noon Sample.empty_store = Saved st1 h1
    /\ main String.compare Sample.run_later st1 = Saved st2 h2
    /\ history_file st2 = history_file st1
    /\ count_date (run_date Sample.run_noon) (history_file st2) = 1%nat
    /\ h2 = h1
    /\ count_date (run_date Sample.run_noon) h2 = 1%nat
    /\ latest_file st1 = Some s1
    /\ latest_file st2 = Some (restamp (now_latest Sample.run_later) s1).
Proof.
  apply (@same_date_twice float _ String.compare
           Sample.empty_store Sample.run_noon Sample.run_later).
  - reflexivity.
  - reflexivity.
  - reflexivity.
  - vm_compute. lia.
Defined.

Lemma short_history_holds_witness :
  (length (flat_history 59 2000%float None None) < 60)%nat
  /\ computeScore (flat_history 59 2000%float None None)
     = {| score := 0; verdict := HOLD; confidence := 0;
          signals := Reason "need >= 60 days history" |}.
Proof.
  assert (L : (length (flat_history 59 2000%float None None) < 60)%nat)
    by (vm_compute; lia).
  split; [exact L|]. exact (short_history_holds _ L).
Defined.

Lemma ema_seed_and_blend_witness :
  ema Sample.seeds 3 = Some 13
  /\ ema_spec Sample.seeds 3 = Some 13
  /\ sma Sample.seeds 3 = Some 11.
Proof.
  assert (E : ema_spec Sample.seeds 3 = Some 13) by (vm_compute; reflexivity).
  split; [|split].
  - rewrite <- E. exact (proj1 (@ema_seed_and_blend float _ Sample.seeds 3%nat)).
  - exact E.
  - vm_compute. reflexivity.
Defined.

Lemma atr14_wilder_witness :
  atr14 Sample.gapped = atr14_spec Sample.gapped
  /\ atr14_spec Sample.gapped = Some 12
  /\ map (fun b => h_ b - l_ b) (skipn 14 Sample.gapped) = [2; 2].
Proof.
  split; [|split].
  - exact (@atr14_wilder float Binary64.number Binary64Facts.lawful Sample.gapped).
  - vm_compute. reflexivity.
  - vm_compute. reflexivity.
Defined.

Lemma verdict_thresholds_witness :
  (60 <= length Sample.rising)%nat
  /\ (verdict (computeScore Sample.rising) = BUY
      <-> (0.25 <? score (computeScore Sample.rising)) = true)
  /\ (verdict (computeScore Sample.rising) = SELL
      <-> (score (computeScore Sample.rising) <? -0.25) = true).
Proof.
  assert (L : (60 <= length Sample.rising)%nat) by (vm_compute; lia).
  split; [exact L|].
  destruct (@verdict_thresholds float Binary64.number Binary64Facts.lawful
              Sample.rising L) as (Hb & Hs & _ & _).
  split; [exact Hb|exact Hs].
Defined.

Lemma unavailable_or_zero_witness :
  sma [1; 2; 3] 5 = None
  /\ ema [1; 2; 3] 5 = None
  /\ zscore [1; 2; 3] 5 = None
  /\ atr14 (firstn 14 Sample.ranges) = None
  /\ zscore (repeat 7 60) 60 = Some 0.
Proof.
  destruct (@unavailable_or_zero float Binary64.number Binary64Facts.lawful)
    as (Hshort & Hatr & Hzero).
  assert (L3 : (length [1; 2; 3] < 5)%nat) by (vm_compute; lia).
  destruct (Hshort [1; 2; 3] 5%nat L3) as (Hs & He & Hz).
  split; [exact Hs|]. split; [exact He|]. split; [exact Hz|].
  split.
  - apply Hatr. vm_compute. lia.
  - apply Hzero.
    + vm_compute. lia.
    + vm_compute. reflexivity.
Defined.

Lemma ret5d_lookback_witness :
  (60 <= length Sample.rising)%nat
  /\ (60 <= length Sample.zero_close)%nat
  /\ (exists b,
        signals (computeScore Sample.rising) = Bundle b
        /\ ret_5d b = rising_close 59 / rising_close 54 - 1)
  /\ (exists b,
        signals (computeScore Sample.zero_close) = Bundle b
        /\ ret_5d b = 0).
Proof.
  assert (L : (60 <= length Sample.rising)%nat) by (vm_compute; lia).
  assert (L0 : (60 <= length Sample.zero_close)%nat) by (vm_compute; lia).
  split; [exact L|]. split; [exact L0|]. split.
  - destruct (ret5d_lookback Sample.rising L) as (b & Hb & Hr & _).
    exists b. split; [exact Hb|].
    apply (Hr (rising_close 54) (rising_close 59)); reflexivity.
  - destruct (ret5d_lookback Sample.zero_close L0) as (b & Hb & _ & _ & _ & _ & Hz).
    exists b. split; [exact Hb|].
    apply (Hz 0); reflexivity.
Defined.

Lemma score_ignores_high_low_witness :
  Forall2 same_but_high_low Sample.rising Sample.rising_wide
  /\ score (computeScore Sample.rising) = score (computeScore Sample.rising_wide)
  /\ verdict (computeScore Sample.rising) = verdict (computeScore Sample.rising_wide).
Proof.
  assert (F : Forall2 same_but_high_low Sample.rising Sample.rising_wide)
    by (vm_compute; repeat constructor).
  split; [exact F|]. exact (score_ignores_high_low F).
Defined.

Lemma flat_series_confidence_witness :
  (60 <= 60)%nat /\ (0 <? 100) = true /\ (100 <? infinity) = true
  /\ exists b,
       signals (computeScore (Sample.flat 100)) = Bundle b
       /\ trend b = 0 /\ participation b = 0
       /\ momentum b = 0 /\ atr_pct b = 0
       /\ score (computeScore (Sample.flat 100)) = 0
       /\ verdict (computeScore (Sample.flat 100)) = HOLD
       /\ confidence (computeScore (Sample.flat 100)) = 45.
Proof.
  assert (L : (60 <= 60)%nat) by lia.
  assert (H0 : (0 <? 100) = true) by reflexivity.
  assert (Hi : (100 <? infinity) = true) by reflexivity.
  split; [exact L|]. split; [exact H0|]. split; [exact Hi|].
  destruct (@flat_series_confidence 60%nat 100 (Some 1000) (Some 500) L H0 Hi)
    as (b & Hb & Hm & Ha & Hrest).
  assert (Hz : trend b = 0 /\ participation b = 0).
  { change (computeScore (flat_history 60 100 (Some 1000) (Some 500)))
      with (computeScore (Sample.flat 100)) in Hb.
    vm_compute in Hb. injection Hb as <-. split; reflexivity. }
  destruct Hz as [Ht Hq]. destruct (Hrest Ht Hq) as (Hs & Hv & Hc).
  exists b. repeat (split; [assumption|]). exact Hc.
Defined.

End Witnesses.

(* ================================================================= *)
(** * Further properties of the code                                 *)

(** ** Indicators on any carrier                                     *)

Section IndicatorExtras.
Context {N : Type} `{JsNumber N}.
Local Open Scope js_scope.

Lemma slice_last_idem (values : list N) (period : nat) :
  period <= length values ->
  slice_last (slice_last values period) period = slice_last values period.
Proof.
  intros Hp. unfold slice_last at 1.
  assert (L : length (slice_last values period) = period)
    by (unfold slice_last; rewrite length_skipn; lia).
  rewrite L, Nat.sub_diag. reflexivity.
Qed.

Lemma slice_last_length (values : list N) (period : nat) :
  period <= length values -> length (slice_last values period) = period.
Proof. intros Hp. unfold slice_last. rewrite length_skipn. lia. Qed.

Lemma slice_last_app (pre window : list N) :
  slice_last (pre ++ window) (length window) = window.
Proof.
  unfold slice_last. rewrite length_app, Nat.add_sub.
  rewrite skipn_app, Nat.sub_diag, skipn_all. reflexivity.
Qed.

(** X1: [sma] only looks at the last [period] values. *)
Theorem sma_trailing_window (pre window : list N) :
  sma (pre ++ window) (length window) = sma window (length window).
Proof.
  unfold sma. rewrite slice_last_app, slice_last_all.
  rewrite length_app, Nat.ltb_irrefl.
  assert (G : ((length pre + length window)%nat <? length window)%nat = false)
    by (apply Nat.ltb_ge; lia).
  now rewrite G.
Qed.

Lemma at_index_last_app (pre window : list N) :
  window <> [] ->
  at_index (pre ++ window) (length (pre ++ window) - 1)
  = at_index window (length window - 1).
Proof.
  intros Hw. unfold at_index. rewrite length_app.
  assert (0 < length window) by (destruct window; [congruence|cbn; lia]).
  rewrite app_nth2 by lia. f_equal. lia.
Qed.

(** X2: [zscore] only looks at the last [lookback] values. *)
Theorem zscore_trailing_window (pre window : list N) :
  window <> [] ->
  zscore (pre ++ window) (length window) = zscore window (length window).
Proof.
  intros Hw. unfold zscore.
  rewrite slice_last_app, slice_last_all, (at_index_last_app pre Hw).
  rewrite length_app, Nat.ltb_irrefl.
  assert (G : ((length pre + length window)%nat <? length window)%nat = false)
    by (apply Nat.ltb_ge; lia).
  now rewrite G.
Qed.

(** X3: With exactly [period] values the exponential average is the simple
    one. *)
Theorem ema_of_one_window (values : list N) :
  ema values (length values) = sma values (length values).
Proof.
  rewrite ema_available by lia. unfold sma.
  rewrite Nat.ltb_irrefl, skipn_all, firstn_all, slice_last_all. reflexivity.
Qed.

(** X4: One more value moves the average by one blending step. *)
Theorem ema_append (values : list N) (period : nat) (e x : N) :
  ema values period = Some e ->
  ema (values ++ [x]) period
  = Some (x * (ofZ 2 / (ofNat period + ofZ 1))
          + e * (ofZ 1 - ofZ 2 / (ofNat period + ofZ 1))).
Proof.
  intros He.
  destruct (Nat.lt_ge_cases (length values) period) as [Hs|Hp].
  - rewrite (ema_short _ Hs) in He. discriminate.
  - rewrite (ema_available _ Hp) in He. injection He as He.
    rewrite ema_available by (rewrite length_app; lia).
    rewrite skipn_app, firstn_app.
    replace (period - length values)%nat with 0%nat by lia.
    cbn [skipn firstn]. rewrite app_nil_r, fold_left_app. cbn [fold_left].
    now rewrite He.
Qed.

Lemma true_ranges_app (pc : option N) (bars : list (HLC N)) (b : HLC N) :
  true_ranges pc (bars ++ [b])
  = true_ranges pc bars
    ++ [trueRange (match bars with [] => pc | _ => c_ (last bars b) end)
                  (h_ b) (l_ b)].
Proof.
  revert pc. induction bars as [|a r IH]; intros pc; [reflexivity|].
  cbn [app true_ranges]. rewrite IH. cbn [app]. do 3 f_equal.
  destruct r; reflexivity.
Qed.

(** X5: One more bar moves the average true range by one Wilder step, taken
    against the close of the previously last bar. *)
Theorem atr14_append `{!LawfulNumber N} (bars : list (HLC N)) (b : HLC N) (a : N) :
  atr14 bars = Some a ->
  atr14 (bars ++ [b])
  = Some ((a * ofZ 13 + trueRange (c_ (last bars b)) (h_ b) (l_ b)) / ofZ 14).
Proof.
  intros Ha.
  destruct (Nat.lt_ge_cases (length bars) 15) as [Hs|Hp].
  - rewrite (atr14_short _ Hs) in Ha. discriminate.
  - rewrite (atr14_available _ Hp) in Ha. injection Ha as Ha.
    rewrite atr14_available by (rewrite length_app; lia).
    rewrite true_ranges_app.
    assert (L : length (true_ranges None bars) = length bars)
      by apply true_ranges_length.
    rewrite skipn_app, firstn_app.
    replace (14 - length (true_ranges None bars))%nat with 0%nat by lia.
    cbn [skipn firstn]. rewrite app_nil_r, fold_left_app. cbn [fold_left].
    rewrite Ha. destruct bars; [cbn in Hp; lia|reflexivity].
Qed.

End IndicatorExtras.

(** ** Order and bounds                                              *)

Module Binary64Order.
Import Binary64.
Local Open Scope float_scope.

Lemma SFcompare_antisym (f1 f2 : spec_float) :
  SFcompare f2 f1
  = match SFcompare f1 f2 with Some c => Some (CompOpp c) | None => None end.
Proof.
  destruct f1 as [s1|s1| |s1 m1 e1], f2 as [s2|s2| |s2 m2 e2];
    cbn [SFcompare]; try reflexivity;
    try (destruct s1; reflexivity); try (destruct s2; reflexivity);
    try (destruct s1, s2; reflexivity).
  change (Pos.compare_cont Eq) with Pos.compare.
  destruct s1, s2; try reflexivity;
    rewrite (Z.compare_antisym e1 e2), (Pos.compare_antisym m1 m2);
    destruct (e1 ?= e2)%Z; cbn [CompOpp]; reflexivity.
Qed.

Lemma SFcompare_refl (f : spec_float) :
  f <> S754_nan -> SFcompare f f = Some Eq.
Proof.
  destruct f as [s|s| |s m e]; cbn [SFcompare]; try congruence; intros _.
  - now destruct s.
  - destruct s; now rewrite Z.compare_refl, Pos.compare_cont_refl.
Qed.

Lemma SFcompare_none (f1 f2 : spec_float) :
  SFcompare f1 f2 = None -> f1 = S754_nan \/ f2 = S754_nan.
Proof.
  destruct f1 as [s1|s1| |s1 m1 e1], f2 as [s2|s2| |s2 m2 e2];
    cbn [SFcompare]; try discriminate; auto.
Qed.

Lemma is_num_spec (x : float) : (x =? x) = true <-> Prim2SF x <> S754_nan.
Proof.
  rewrite FloatAxioms.eqb_spec. unfold SFeqb. split.
  - intros E Hn. rewrite Hn in E. discriminate.
  - intros Hn. now rewrite (SFcompare_refl Hn).
Qed.

(** Two numbers are ordered one way, the other way, or equal. *)
Lemma float_trichotomy (x y : float) :
  (x =? x) = true -> (y =? y) = true ->
  ((x <? y) = true /\ (y <? x) = false /\ (x =? y) = false /\ (y =? x) = false)
  \/ ((y <? x) = true /\ (x <? y) = false /\ (x =? y) = false /\ (y =? x) = false)
  \/ ((x =? y) = true /\ (y =? x) = true /\ (x <? y) = false /\ (y <? x) = false).
Proof.
  intros Hx Hy. apply is_num_spec in Hx. apply is_num_spec in Hy.
  rewrite !ltb_spec, !FloatAxioms.eqb_spec. unfold SFltb, SFeqb.
  rewrite (SFcompare_antisym (Prim2SF x) (Prim2SF y)).
  destruct (SFcompare (Prim2SF x) (Prim2SF y)) as [[| |]|] eqn:E; cbn [CompOpp].
  - right. right. repeat split.
  - left. repeat split.
  - right. left. repeat split.
  - destruct (SFcompare_none _ _ E); contradiction.
Qed.

Lemma nan_is_not_num : (PrimFloat.nan =? PrimFloat.nan) = false.
Proof. reflexivity. Qed.

Lemma lt_gives_nums (x y : float) :
  ((x <? y) || (x =? y)) = true -> (x =? x) = true /\ (y =? y) = true.
Proof.
  intros Hle. split; apply is_num_spec; intros Hn;
    rewrite ltb_spec, FloatAxioms.eqb_spec in Hle; unfold SFltb, SFeqb in Hle;
    rewrite Hn in Hle.
  - discriminate.
  - destruct (Prim2SF x); discriminate.
Qed.

Lemma min2_spec (b x : float) :
  (b =? b) = true -> (x =? x) = true ->
  (min2 b x = b \/ min2 b x = x)
  /\ ((min2 b x <? b) || (min2 b x =? b)) = true.
Proof.
  intros Hb Hx. unfold min2, is_nan. rewrite Hb, Hx. cbn [negb orb].
  destruct (float_trichotomy Hb Hx)
    as [(L & G & _ & _) | [(L & G & _ & _) | (E & E' & L & G)]];
    rewrite ?L, ?G; [| |destruct (get_sign b)];
    (split; [auto|rewrite ?Hb, ?E', ?L, ?orb_true_r; reflexivity]).
Qed.

Lemma max2_spec (a m : float) :
  (a =? a) = true -> (m =? m) = true ->
  (max2 a m = a \/ max2 a m = m)
  /\ ((a <? max2 a m) || (a =? max2 a m)) = true.
Proof.
  intros Ha Hm. unfold max2, is_nan. rewrite Ha, Hm. cbn [negb orb].
  destruct (float_trichotomy Ha Hm)
    as [(L & G & _ & _) | [(L & G & _ & _) | (E & E' & L & G)]];
    rewrite ?L, ?G; [| |destruct (get_sign a)];
    (split; [auto|rewrite ?Ha, ?E, ?L, ?orb_true_r; reflexivity]).
Qed.

Lemma min2_nan (b x : float) :
  (b =? b) = false \/ (x =? x) = false -> min2 b x = PrimFloat.nan.
Proof.
  intros [Hn|Hn]; unfold min2, is_nan; rewrite Hn; cbn [negb orb];
    [reflexivity|now rewrite orb_true_r].
Qed.

Lemma max2_nan (a m : float) :
  (a =? a) = false \/ (m =? m) = false -> max2 a m = PrimFloat.nan.
Proof.
  intros [Hn|Hn]; unfold max2, is_nan; rewrite Hn; cbn [negb orb];
    [reflexivity|now rewrite orb_true_r].
Qed.

(** On doubles [clamp(x, a, b)] with [a <= b] is NaN or lies in [[a, b]]. *)
Lemma float_clamp_in_range (x a b : float) :
  ((a <? b) || (a =? b)) = true ->
  (max2 a (min2 b x) =? max2 a (min2 b x)) = true ->
  ((a <? max2 a (min2 b x)) || (a =? max2 a (min2 b x))) = true
  /\ ((max2 a (min2 b x) <? b) || (max2 a (min2 b x) =? b)) = true.
Proof.
  intros Hab Hnum. destruct (lt_gives_nums _ _ Hab) as [Ha Hb].
  destruct (x =? x) eqn:Hx.
  2:{ rewrite (@min2_nan b x), (@max2_nan a PrimFloat.nan) in Hnum by auto.
      discriminate. }
  destruct (min2_spec Hb Hx) as [Hm Hmb].
  assert (Hmn : (min2 b x =? min2 b x) = true) by (destruct Hm as [-> | ->]; assumption).
  destruct (max2_spec Ha Hmn) as [Hr Har].
  split; [exact Har|].
  destruct Hr as [-> | ->]; assumption.
Qed.

Lemma float_nan_unordered (s a : float) :
  (s =? s) = false -> (a <? s) = false /\ (s <? a) = false.
Proof.
  intros Hs.
  assert (Hn : Prim2SF s = S754_nan).
  { destruct (Prim2SF s) as [z|i| |sg m e] eqn:E; [| |reflexivity|];
      exfalso; assert (Q : Prim2SF s <> S754_nan) by (rewrite E; discriminate);
      apply is_num_spec in Q; congruence. }
  rewrite !ltb_spec. unfold SFltb. rewrite Hn. split; [|reflexivity].
  now destruct (Prim2SF a).
Qed.

#[global] Instance ordered : OrderedNumber float.
Proof.
  constructor.
  - intros x a b Hab Hnum.
    destruct (@float_clamp_in_range x a b Hab Hnum) as [H1 H2].
    apply andb_true_iff. split; [exact H1|exact H2].
  - exact float_nan_unordered.
  - vm_compute. reflexivity.
  - vm_compute. reflexivity.
  - vm_compute. reflexivity.
Qed.
End Binary64Order.

Module ExactOrder.
Import Exact.
Local Open Scope Qc_scope.

Lemma eq_bool_refl (x : Qc) : Qc_eq_bool x x = true.
Proof. unfold Qc_eq_bool. now destruct (Qc_eq_dec x x). Qed.

Lemma le_num_le (sqrtQc : Qc -> Qc) (a b : Qc) :
  le_num (H:=number sqrtQc) a b = true <-> a <= b.
Proof.
  unfold le_num. change ((ltb a b || Qc_eq_bool a b)%bool = true <-> a <= b).
  rewrite orb_true_iff, ExactFacts.ltb_lt. split.
  - intros [Hl|He]; [now apply Qclt_le_weak|].
    apply Qc_eq_bool_correct in He. subst. apply Qcle_refl.
  - intros Hle. destruct (Qcle_lt_or_eq _ _ Hle) as [Hl|He]; [now left|right].
    subst. apply eq_bool_refl.
Qed.

Lemma min2_le (b x : Qc) : min2 b x <= b /\ min2 b x <= x.
Proof.
  unfold min2. destruct (ltb b x) eqn:E.
  - apply ExactFacts.ltb_lt in E. split; [apply Qcle_refl|now apply Qclt_le_weak].
  - apply ExactFacts.ltb_ge in E. split; [exact E|apply Qcle_refl].
Qed.

Lemma max2_ge (a m : Qc) : a <= max2 a m /\ m <= max2 a m.
Proof.
  unfold max2. destruct (ltb a m) eqn:E.
  - apply ExactFacts.ltb_lt in E. split; [now apply Qclt_le_weak|apply Qcle_refl].
  - apply ExactFacts.ltb_ge in E. split; [apply Qcle_refl|exact E].
Qed.

Lemma max2_cases (a m : Qc) : max2 a m = a \/ max2 a m = m.
Proof. unfold max2. destruct (ltb a m); auto. Qed.

(** In exact arithmetic [clamp(x, a, b)] with [a <= b] lies in [[a, b]]. *)
Lemma clamp_between (x a b : Qc) :
  a <= b -> a <= max2 a (min2 b x) /\ max2 a (min2 b x) <= b.
Proof.
  intros Hab. split; [apply max2_ge|].
  destruct (max2_cases a (min2 b x)) as [-> | ->]; [exact Hab|apply min2_le].
Qed.

Lemma ordered (sqrtQc : Qc -> Qc) : OrderedNumber Qc (JN := number sqrtQc).
Proof.
  constructor.
  - intros x a b Hab _. apply le_num_le in Hab.
    unfold in_range. apply andb_true_iff.
    destruct (clamp_between x Hab) as [H1 H2].
    split; apply le_num_le; assumption.
  - intros s a Hs. exfalso.
    change (Qc_eq_bool s s = false) in Hs. rewrite eq_bool_refl in Hs. discriminate.
  - vm_compute. reflexivity.
  - vm_compute. reflexivity.
  - apply Qc_is_canon. vm_compute. reflexivity.
Qed.
End ExactOrder.

(** X9: [clamp(x, a, b)] on doubles, for [a <= b]: NaN or a number of
    [[a, b]]. *)
Theorem double_clamp_in_range (x a b : float) :
  le_num a b = true -> is_num (clamp x a b) = true ->
  in_range a b (clamp x a b) = true.
Proof.
  intros Hab Hnum.
  destruct (@Binary64Order.float_clamp_in_range x a b Hab Hnum) as [H1 H2].
  apply andb_true_iff. split; [exact H1|exact H2].
Qed.

Section OrderedClaims.
Context {N : Type} `{JsNumber N} `{!OrderedNumber N}.
Local Open Scope js_scope.

(** X10: The score and the three sub-signals are NaN or lie in [[-1, 1]]. *)
Theorem score_within_bounds (history : list (Bar N)) :
  let r := computeScore history in
  (is_num (score r) = true -> in_range (- ofZ 1) (ofZ 1) (score r) = true)
  /\ (forall b, signals r = Bundle b ->
        (is_num (trend b) = true -> in_range (- ofZ 1) (ofZ 1) (trend b) = true)
        /\ (is_num (momentum b) = true ->
            in_range (- ofZ 1) (ofZ 1) (momentum b) = true)
        /\ (is_num (participation b) = true ->
            in_range (- ofZ 1) (ofZ 1) (participation b) = true)).
Proof.
  intros r. subst r. unfold computeScore.
  destruct (length history <? 60)%nat.
  - cbn [score signals]. split; [intros _; apply zero_in_bounds|].
    intros b Hb. discriminate.
  - cbv zeta. cbn [score signals]. split.
    + apply clamp_in_range, bounds_score.
    + intros b Hb. injection Hb as <-. cbn [trend momentum participation].
      repeat split; apply clamp_in_range, bounds_score.
Qed.

(** X11: A NaN score is never a BUY or a SELL. *)
Theorem nan_score_holds (history : list (Bar N)) :
  is_num (score (computeScore history)) = false ->
  verdict (computeScore history) = HOLD.
Proof.
  unfold computeScore.
  destruct (length history <? 60)%nat; [intros _; reflexivity|].
  cbv zeta. cbn [score verdict]. intros Hn. unfold verdict_of.
  destruct (@nan_unordered N _ _ _ (dec 25 100) Hn) as [-> _].
  destruct (@nan_unordered N _ _ _ (- dec 25 100) Hn) as [_ ->]. reflexivity.
Qed.

Lemma numbers_all_none (xs : list (option N)) :
  Forall (fun x => x = None) xs -> numbers xs = [].
Proof. induction 1 as [|x r -> _ IH]; [reflexivity|exact IH]. Qed.

Lemma participation_without_numbers (history : list (Bar N)) :
  60 <= length history ->
  numbers (map vol history) = [] -> numbers (map oi history) = [] ->
  exists b,
    signals (computeScore history) = Bundle b
    /\ vol_z60 b = ofZ 0 /\ oi_z60 b = ofZ 0 /\ participation b = ofZ 0.
Proof.
  intros Hlen Hv Ho. unfold computeScore. rewrite (guard_passed _ Hlen). cbv zeta.
  rewrite Hv, Ho. eexists. split; [reflexivity|].
  cbn [vol_z60 oi_z60 participation zscore length Nat.ltb Nat.leb].
  repeat split. apply no_participation.
Qed.

(** X13: Records that lack the [vol] and [oi] keys, as the records [main]
    writes do, have no participation signal. *)
Theorem no_volume_keys_no_participation (history : list (Bar N)) :
  60 <= length history ->
  Forall (fun x => vol x = None /\ oi x = None) history ->
  exists b,
    signals (computeScore history) = Bundle b
    /\ vol_z60 b = ofZ 0 /\ oi_z60 b = ofZ 0 /\ participation b = ofZ 0.
Proof.
  intros Hlen Hk. apply participation_without_numbers; [exact Hlen| |].
  - apply numbers_all_none, Forall_map. eapply Forall_impl; [|exact Hk].
    now intros x [? _].
  - apply numbers_all_none, Forall_map. eapply Forall_impl; [|exact Hk].
    now intros x [_ ?].
Qed.

End OrderedClaims.

(** ** The sign of the average true range, on doubles               *)

Module Binary64Sign.
Import Binary64.
Local Open Scope float_scope.









End Binary64Sign.

Section SignOnDoubles.
Local Open Scope float_scope.

Local Abbreviation nn := (fun x : float => (x <? 0) = false).














End SignOnDoubles.

Section SignWitness.
Local Open Scope float_scope.


End SignWitness.

(** ** The ingestion run                                             *)

Section IngestionExtras.
Context {N : Type} `{JsNumber N}.
Variable localeCompare : string -> string -> comparison.

Local Abbreviation sort := (sort_by_date localeCompare).
Local Abbreviation run_main := (main localeCompare).

Lemma saved_shape (run : Run N) (st st' : Store N) (mem : list (Bar N)) :
  run_main run st = Saved st' mem ->
  exists stm latest,
    st' = saveLatest (latestJson latest (computeScore (sort (history_file stm)))
                                 (now_latest run)) stm
    /\ mem = sort (history_file stm)
    /\ nth_error mem (length mem - 1) = Some latest
    /\ (stm = st /\ has_date (run_date run) (history_file st) = true
        \/ exists bar bo bh bl bc,
             stm = appendHistory (record run bar bo bh bl bc) st
             /\ has_date (run_date run) (history_file st) = false
             /\ gold_bar run = Some bar
             /\ p_o bar = Some bo /\ p_h bar = Some bh
             /\ p_l bar = Some bl /\ p_c bar = Some bc).
Proof.
  intros Hm. unfold main, loadHistory in Hm.
  destruct (negb (truthy_str (arg_file run)) && negb (truthy_str (arg_url run)));
    [discriminate|].
  destruct (gold_bar run) as [bar|]; [|discriminate].
  destruct (p_o bar) as [bo|] eqn:Eo; [|discriminate].
  destruct (p_h bar) as [bh|] eqn:Eh; [|discriminate].
  destruct (p_l bar) as [bl|] eqn:El; [|discriminate].
  destruct (p_c bar) as [bc|] eqn:Ec; [|discriminate].
  cbv zeta in Hm.
  destruct (has_date (run_date run) (history_file st)) eqn:D; cbn [negb] in Hm;
    unfold score_and_save in Hm;
    match type of Hm with
    | match nth_error ?l ?i with _ => _ end = _ =>
        destruct (nth_error l i) as [latest|] eqn:L; [|discriminate]
    end;
    injection Hm as <- <-.
  - exists st, latest. repeat split; auto.
  - exists (appendHistory (record run bar bo bh bl bc) st), latest.
    repeat split; auto. right. exists bar, bo, bh, bl, bc. repeat split; auto.
Qed.

(** X15: The log is append-only: a saving run leaves every stored line in
    place and adds at most one line, at the end, for its own date and only
    when that date was absent. *)
Theorem history_append_only (run : Run N) (st st' : Store N) (mem : list (Bar N)) :
  run_main run st = Saved st' mem ->
  (history_file st' = history_file st
   /\ has_date (run_date run) (history_file st) = true)
  \/ (exists rec,
        history_file st' = history_file st ++ [rec]
        /\ date rec = run_date run
        /\ has_date (run_date run) (history_file st) = false).
Proof.
  intros Hm. destruct (saved_shape _ _ Hm) as (stm & latest & -> & _ & _ & Hc).
  cbn [saveLatest history_file].
  destruct Hc as [[-> D] | (bar & bo & bh & bl & bc & -> & D & _)].
  - left. split; [reflexivity|exact D].
  - right. eexists. split; [reflexivity|]. split; [reflexivity|exact D].
Qed.

Lemma has_date_false_not_in (d : string) (history : list (Bar N)) :
  has_date d history = false -> ~ In d (map date history).
Proof.
  unfold has_date. induction history as [|x r IH]; cbn; [tauto|].
  intros Hf [Hx|Hr]; apply orb_false_iff in Hf; destruct Hf as [Hd Hrest].
  - subst d. rewrite String.eqb_refl in Hd. discriminate.
  - now apply IH.
Qed.

(** X16: A log with one record per date keeps one record per date. *)
Theorem dates_stay_unique (run : Run N) (st st' : Store N) (mem : list (Bar N)) :
  run_main run st = Saved st' mem ->
  NoDup (map date (history_file st)) ->
  NoDup (map date (history_file st')).
Proof.
  intros Hm Hn.
  destruct (saved_shape _ _ Hm) as (stm & latest & -> & _ & _ & Hc).
  cbn [saveLatest history_file].
  destruct Hc as [[-> _] | (bar & bo & bh & bl & bc & -> & D & _)]; [exact Hn|].
  cbn [appendHistory history_file].
  assert (Hd : date (record run bar bo bh bl bc) = run_date run) by reflexivity.
  set (rec := record run bar bo bh bl bc) in *.
  rewrite map_app. cbn [map].
  apply NoDup_rev in Hn. rewrite <- (rev_involutive (map date (history_file st) ++ _)).
  apply NoDup_rev. rewrite rev_app_distr. cbn [rev app]. constructor; [|exact Hn].
  rewrite <- in_rev, Hd. now apply has_date_false_not_in.
Qed.

Lemma insert_by_date_perm (x : Bar N) (xs : list (Bar N)) :
  Permutation (x :: xs) (insert_by_date localeCompare x xs).
Proof.
  induction xs as [|y r IH]; [reflexivity|]. cbn [insert_by_date].
  destruct (localeCompare (date x) (date y)); try reflexivity.
  rewrite perm_swap. now constructor.
Qed.

Lemma sort_by_date_perm (xs : list (Bar N)) : Permutation xs (sort xs).
Proof.
  induction xs as [|x r IH]; [reflexivity|]. cbn [sort_by_date].
  rewrite <- insert_by_date_perm. now constructor.
Qed.

Section Consistent.
Hypothesis cmp_ok : consistent_comparator localeCompare.

Local Abbreviation R := (not_after localeCompare).

Lemma not_after_refl (a : Bar N) : R a a.
Proof.
  destruct cmp_ok as [Anti _]. unfold not_after.
  pose proof (Anti (date a) (date a)) as E.
  destruct (localeCompare (date a) (date a)); cbn in E; congruence.
Qed.

Lemma after_flips (a b : Bar N) :
  localeCompare (date a) (date b) = Gt -> R b a.
Proof.
  destruct cmp_ok as [Anti _]. unfold not_after. intros E.
  rewrite (Anti (date a) (date b)), E. discriminate.
Qed.

Lemma insert_by_date_sorted (x : Bar N) (xs : list (Bar N)) :
  StronglySorted R xs -> StronglySorted R (insert_by_date localeCompare x xs).
Proof.
  destruct cmp_ok as [_ Trans].
  induction 1 as [|y r Hs IH Hy]; cbn [insert_by_date].
  - repeat constructor.
  - destruct (localeCompare (date x) (date y)) eqn:E.
    + constructor; [now constructor|]. constructor.
      * unfold not_after. rewrite E. discriminate.
      * eapply Forall_impl; [|exact Hy]. intros z Hz. unfold not_after in *.
        apply Trans with (date y); [rewrite E; discriminate|exact Hz].
    + constructor; [now constructor|]. constructor.
      * unfold not_after. rewrite E. discriminate.
      * eapply Forall_impl; [|exact Hy]. intros z Hz. unfold not_after in *.
        apply Trans with (date y); [rewrite E; discriminate|exact Hz].
    + constructor; [exact IH|].
      apply (Permutation_Forall (insert_by_date_perm x r)).
      constructor; [now apply after_flips|exact Hy].
Qed.

Lemma sort_by_date_sorted (xs : list (Bar N)) : StronglySorted R (sort xs).
Proof.
  induction xs as [|x r IH]; [constructor|]. cbn [sort_by_date].
  now apply insert_by_date_sorted.
Qed.

Lemma sorted_last_is_max (xs : list (Bar N)) (z : Bar N) :
  StronglySorted R xs ->
  nth_error xs (length xs - 1) = Some z ->
  Forall (fun b => R b z) xs.
Proof.
  induction 1 as [|y r Hs IH Hy]; [constructor|].
  intros Hz. destruct r as [|y2 r2].
  - cbn in Hz. injection Hz as <-. constructor; [apply not_after_refl|constructor].
  - assert (E1 : length (y :: y2 :: r2) - 1 = S (length (y2 :: r2) - 1))
      by (cbn [length]; lia).
    rewrite E1 in Hz. cbn [nth_error] in Hz.
    specialize (IH Hz). constructor; [|exact IH].
    assert (Hin : In z (y2 :: r2)) by (eapply nth_error_In; exact Hz).
    rewrite Forall_forall in Hy. now apply Hy.
Qed.

(** X17: With a consistent comparator the in-memory history is the log in
    ascending date order, and the snapshot describes a record whose date
    no stored date comes after. *)
Theorem snapshot_is_newest (run : Run N) (st st' : Store N) (mem : list (Bar N)) :
  run_main run st = Saved st' mem ->
  Permutation (history_file st') mem
  /\ StronglySorted R mem
  /\ exists s,
       latest_file st' = Some s
       /\ Forall (fun b => localeCompare (date b) (s_date s) <> Gt)
                 (history_file st').
Proof.
  intros Hm. destruct (saved_shape _ _ Hm) as (stm & latest & -> & -> & L & _).
  cbn [saveLatest history_file latest_file].
  split; [apply sort_by_date_perm|]. split; [apply sort_by_date_sorted|].
  eexists. split; [reflexivity|]. cbn [latestJson s_date].
  apply (Permutation_Forall (Permutation_sym (sort_by_date_perm (history_file stm)))).
  exact (sorted_last_is_max (sort_by_date_sorted _) L).
Qed.

(** X18: Ingesting a date later than every stored one makes the snapshot show
    the ingested bar. *)
Theorem newest_bar_is_shown (run : Run N) (st st' : Store N) (mem : list (Bar N)) :
  run_main run st = Saved st' mem ->
  Forall (fun b => localeCompare (date b) (run_date run) = Lt) (history_file st) ->
  exists s bar bo bh bl bc,
    latest_file st' = Some s
    /\ gold_bar run = Some bar
    /\ p_o bar = Some bo /\ p_h bar = Some bh
    /\ p_l bar = Some bl /\ p_c bar = Some bc
    /\ s_date s = run_date run
    /\ s_ohlc s = (bo, bh, bl, Some bc).
Proof.
  intros Hm Hold.
  destruct (saved_shape _ _ Hm) as (stm & latest & -> & -> & L & Hc).
  destruct cmp_ok as [Anti _].
  assert (Hfresh : has_date (run_date run) (history_file st) = false).
  { destruct (has_date (run_date run) (history_file st)) eqn:D; [|reflexivity].
    unfold has_date in D. apply existsb_exists in D. destruct D as (x & Hx & Ex).
    apply String.eqb_eq in Ex. rewrite Forall_forall in Hold.
    specialize (Hold x Hx). rewrite Ex in Hold.
    pose proof (Anti (run_date run) (run_date run)) as A.
    rewrite Hold in A. discriminate. }
  destruct Hc as [[_ D] | (bar & bo & bh & bl & bc & -> & _ & G & Eo & Eh & El & Ec)];
    [congruence|].
  pose proof (sorted_last_is_max (sort_by_date_sorted _) L) as Hmax.
  apply (Permutation_Forall (Permutation_sym (sort_by_date_perm _))) in Hmax.
  cbn [appendHistory history_file] in Hmax.
  apply Forall_app in Hmax. destruct Hmax as [_ Hrec].
  inversion Hrec as [|? ? Hr _]; subst. unfold not_after in Hr. cbn [record date] in Hr.
  assert (Hin : In latest (history_file st ++ [record run bar bo bh bl bc])).
  { apply (Permutation_in _ (Permutation_sym (sort_by_date_perm _))).
    eapply nth_error_In. exact L. }
  apply in_app_or in Hin. destruct Hin as [Hin|[<-|[]]].
  - exfalso. rewrite Forall_forall in Hold. specialize (Hold latest Hin).
    rewrite (Anti (date latest) (run_date run)), Hold in Hr. now apply Hr.
  - exists (latestJson (record run bar bo bh bl bc)
              (computeScore (sort (history_file (appendHistory (record run bar bo bh bl bc) st))))
              (now_latest run)), bar, bo, bh, bl, bc.
    cbn [saveLatest latest_file]. repeat split; assumption.
Qed.

End Consistent.

End IngestionExtras.

Section PipelineKeys.
Context {N : Type} `{JsNumber N} `{!OrderedNumber N}.
Variable localeCompare : string -> string -> comparison.

(** X19: The records [main] writes carry [volume] and [open_interest], not the
    [vol] and [oi] keys [computeScore] reads: on a log written by [main]
    the participation signal is always [0]. *)
Theorem written_log_has_no_participation
        (run : Run N) (st st' : Store N) (mem : list (Bar N)) :
  main localeCompare run st = Saved st' mem ->
  Forall lacks_volume_keys (history_file st) ->
  Forall lacks_volume_keys (history_file st')
  /\ (forall s b,
         latest_file st' = Some s -> s_signals s = Bundle b ->
         participation b = ofZ 0).
Proof.
  intros Hm Hk.
  destruct (saved_shape _ _ _ Hm) as (stm & latest & -> & -> & _ & Hc).
  cbn [saveLatest history_file latest_file].
  assert (Hk' : Forall lacks_volume_keys (history_file stm)).
  { destruct Hc as [[-> _] | (bar & bo & bh & bl & bc & -> & _)]; [exact Hk|].
    cbn [appendHistory history_file]. apply Forall_app. split; [exact Hk|].
    constructor; [split; reflexivity|constructor]. }
  split; [exact Hk'|].
  intros s b Es Eb. injection Es as <-. cbn [latestJson s_signals] in Eb.
  set (sorted := sort_by_date localeCompare (history_file stm)) in *.
  assert (Hs : Forall lacks_volume_keys sorted)
    by (apply (Permutation_Forall (sort_by_date_perm localeCompare _)); exact Hk').
  destruct (Nat.lt_ge_cases (length sorted) 60) as [Hshort|Hlong].
  - unfold computeScore in Eb. apply Nat.ltb_lt in Hshort.
    rewrite Hshort in Eb. discriminate.
  - assert (Hv : numbers (map vol sorted) = [])
      by (apply numbers_all_none, Forall_map; eapply Forall_impl; [|exact Hs];
          now intros x [? _]).
    assert (Ho : numbers (map oi sorted) = [])
      by (apply numbers_all_none, Forall_map; eapply Forall_impl; [|exact Hs];
          now intros x [_ ?]).
    destruct (participation_without_numbers _ Hlong Hv Ho) as (b' & Eb' & _ & _ & Hp).
    rewrite Eb' in Eb. injection Eb as <-. exact Hp.
Qed.

End PipelineKeys.

(** ** Reading the bhavcopy                                          *)

Module TextFacts.
Import Text Csv.
Local Open Scope string_scope.

Lemma trim_start_clean (s : string) : starts_space s = false -> trim_start s = s.
Proof. destruct s as [|ch r]; cbn; [reflexivity|]. now intros ->. Qed.

Lemma trim_end_clean (s : string) : ends_space s = false -> trim_end s = s.
Proof.
  induction s as [|ch r IH]; [reflexivity|]. cbn [trim_end ends_space].
  destruct r as [|ch2 r2].
  - cbn. now intros ->.
  - intros He. rewrite (IH He). reflexivity.
Qed.

Lemma trim_clean (s : string) : clean_cell s = true -> trim s = s.
Proof.
  unfold clean_cell, trim. intros Hc.
  apply andb_true_iff in Hc. destruct Hc as [Hc He].
  apply andb_true_iff in Hc. destruct Hc as [_ Hs].
  apply negb_true_iff in He, Hs.
  now rewrite (trim_start_clean _ Hs), (trim_end_clean _ He).
Qed.

Lemma split_commas_nonempty (s : string) : split_commas s <> [].
Proof.
  induction s as [|ch r IH]; cbn; [discriminate|].
  destruct (Ascii.eqb ch ","); [discriminate|].
  destruct (split_commas r); [contradiction|discriminate].
Qed.

Lemma split_commas_plain (c : string) :
  plain c = true -> split_commas c = [c].
Proof.
  induction c as [|ch r IH]; [reflexivity|]. cbn [plain split_commas].
  intros Hp. apply andb_true_iff in Hp. destruct Hp as [Hp Hr].
  apply andb_true_iff in Hp. destruct Hp as [Hc _].
  apply negb_true_iff in Hc. rewrite Hc, (IH Hr). reflexivity.
Qed.

Lemma split_commas_app (c rest : string) :
  plain c = true ->
  split_commas (c ++ String "," rest) = c :: split_commas rest.
Proof.
  induction c as [|ch r IH]; [reflexivity|]. cbn [plain append split_commas].
  intros Hp. apply andb_true_iff in Hp. destruct Hp as [Hp Hr].
  apply andb_true_iff in Hp. destruct Hp as [Hc _].
  apply negb_true_iff in Hc. rewrite Hc, (IH Hr). reflexivity.
Qed.

(** Splitting what [join] wrote gives the cells back. *)
Lemma split_join_cells (cells : list string) :
  cells <> [] -> forallb plain cells = true ->
  split_commas (join_cells cells) = cells.
Proof.
  unfold join_cells. induction cells as [|c r IH]; [congruence|].
  intros _ Hp. cbn [forallb] in Hp. apply andb_true_iff in Hp.
  destruct Hp as [Hc Hr]. cbn [concat]. destruct r as [|c2 r2].
  - now apply split_commas_plain.
  - change (split_commas (c ++ String "," (String.concat "," (c2 :: r2)))
            = c :: c2 :: r2).
    rewrite split_commas_app by exact Hc.
    f_equal. apply IH; [discriminate|exact Hr].
Qed.

Lemma split_lines_app (l rest : string) :
  no_line_feed l = true -> ends_with_cr l = false ->
  split_lines (l ++ String "010" rest) = l :: split_lines rest.
Proof.
  induction l as [|ch r IH]; [reflexivity|].
  cbn [no_line_feed]. intros Hn He. apply andb_true_iff in Hn.
  destruct Hn as [Hc Hr]. apply negb_true_iff in Hc.
  cbn [append split_lines]. rewrite Hc. destruct r as [|ch2 r2].
  - cbn [append]. cbn [ends_with_cr] in He. rewrite He. cbn [andb].
    change (split_lines (String "010" rest)) with (EmptyString :: split_lines rest).
    reflexivity.
  - cbn [append]. cbn [no_line_feed] in Hr. apply andb_true_iff in Hr.
    destruct Hr as [Hc2 Hr2]. apply negb_true_iff in Hc2.
    rewrite Hc2, andb_false_r.
    change (String ch2 (r2 ++ String "010" rest))
      with (String ch2 r2 ++ String "010" rest).
    rewrite IH; [reflexivity| |exact He].
    cbn [no_line_feed]. now rewrite Hc2, Hr2.
Qed.

Lemma csv_lines_join (lines : list string) :
  Forall (fun l => no_line_feed l = true /\ ends_with_cr l = false
                   /\ nonempty l = true) lines ->
  csv_lines (join_lines lines) = lines.
Proof.
  unfold csv_lines. induction 1 as [|l r (Hn & He & Hne) _ IH]; [reflexivity|].
  cbn [join_lines]. rewrite (@split_lines_app l _ Hn He). cbn [filter].
  now rewrite Hne, IH.
Qed.

Lemma plain_no_line_feed (c : string) : plain c = true -> no_line_feed c = true.
Proof.
  induction c as [|ch r IH]; [reflexivity|]. cbn [plain no_line_feed].
  intros Hp. apply andb_true_iff in Hp. destruct Hp as [Hp Hr].
  apply andb_true_iff in Hp. destruct Hp as [_ Hl]. now rewrite Hl, IH.
Qed.

Lemma no_line_feed_app (a b : string) :
  no_line_feed (a ++ b) = no_line_feed a && no_line_feed b.
Proof.
  induction a as [|ch r IH]; [reflexivity|]. cbn [append no_line_feed].
  now rewrite IH, andb_assoc.
Qed.

Lemma ends_with_cr_app (a : string) (ch : ascii) (b : string) :
  ends_with_cr (a ++ String ch b) = ends_with_cr (String ch b).
Proof.
  induction a as [|c r IH]; [reflexivity|].
  cbn [append]. destruct r as [|c2 r2]; exact IH.
Qed.

Lemma ends_space_cr (c : string) : ends_space c = false -> ends_with_cr c = false.
Proof.
  induction c as [|ch r IH]; [reflexivity|]. destruct r as [|c2 r2].
  - cbn. intros Hs. destruct (Ascii.eqb ch "013") eqn:E; [|reflexivity].
    apply Ascii.eqb_eq in E. subst ch. discriminate.
  - exact IH.
Qed.

Lemma clean_parts (c : string) :
  clean_cell c = true ->
  plain c = true /\ starts_space c = false /\ ends_space c = false.
Proof.
  unfold clean_cell. intros Hc.
  apply andb_true_iff in Hc. destruct Hc as [Hc He].
  apply andb_true_iff in Hc. destruct Hc as [Hp Hs].
  apply negb_true_iff in He, Hs. auto.
Qed.

Lemma join_cells_line (cells : list string) :
  forallb clean_cell cells = true ->
  no_line_feed (join_cells cells) = true /\ ends_with_cr (join_cells cells) = false.
Proof.
  unfold join_cells. induction cells as [|c r IH]; [now split|].
  cbn [forallb]. intros Hc. apply andb_true_iff in Hc. destruct Hc as [Hc Hr].
  destruct (clean_parts _ Hc) as (Hp & _ & He). destruct r as [|c2 r2].
  - cbn [concat]. split; [now apply plain_no_line_feed|now apply ends_space_cr].
  - destruct (IH Hr) as [I1 I2].
    change (String.concat "," (c :: c2 :: r2))
      with (c ++ String "," (String.concat "," (c2 :: r2))).
    split.
    + rewrite no_line_feed_app, (plain_no_line_feed _ Hp). cbn [no_line_feed andb negb].
      exact I1.
    + rewrite ends_with_cr_app.
      destruct (String.concat "," (c2 :: r2)) eqn:E; [reflexivity|].
      exact I2.
Qed.

Lemma join_cells_nonempty (cells : list string) :
  2 <= length cells -> nonempty (join_cells cells) = true.
Proof.
  unfold join_cells. destruct cells as [|c [|c2 r]]; cbn [length]; try lia.
  intros _.
  change (String.concat "," (c :: c2 :: r))
    with (c ++ String "," (String.concat "," (c2 :: r))).
  now destruct c.
Qed.

Lemma csv_cells_join (cells : list string) :
  cells <> [] -> forallb clean_cell cells = true ->
  csv_cells (join_cells cells) = cells.
Proof.
  intros Hne Hc. unfold csv_cells.
  assert (Hp : forallb plain cells = true).
  { apply forallb_forall. intros c Hin.
    rewrite forallb_forall in Hc. now destruct (clean_parts _ (Hc c Hin)). }
  rewrite (split_join_cells Hne Hp).
  rewrite <- (map_id cells) at 2. apply map_ext_in.
  intros c Hin. rewrite forallb_forall in Hc. apply trim_clean. now apply Hc.
Qed.

End TextFacts.

Section ParseFacts.
Import Text Csv.

Lemma make_row_fold (header cols : list string) (idx : list nat) (acc : Row) :
  fold_left
    (fun obj j =>
       let k := nth j header EmptyString in
       if (k =? "__proto__")%string then obj
       else (k, nth_error cols j) :: obj)
    idx acc
  = rev (map (fun j => (nth j header EmptyString, nth_error cols j))
             (filter (fun j => negb (nth j header EmptyString =? "__proto__")%string)
                     idx))
    ++ acc.
Proof.
  revert acc. induction idx as [|j r IH]; intros acc; [reflexivity|].
  cbn [fold_left filter]. cbv zeta. rewrite IH.
  destruct (nth j header EmptyString =? "__proto__")%string; cbn [negb];
    [reflexivity|].
  cbn [map rev]. now rewrite <- app_assoc.
Qed.

Lemma make_row_rev (header cols : list string) :
  make_row header cols
  = rev (map (fun j => (nth j header EmptyString, nth_error cols j))
             (filter (fun j => negb (nth j header EmptyString =? "__proto__")%string)
                     (seq 0 (length header)))).
Proof. unfold make_row. now rewrite make_row_fold, app_nil_r. Qed.

Lemma nth_over_seq (header : list string) :
  map (fun j => nth j header EmptyString) (seq 0 (length header)) = header.
Proof.
  apply nth_ext with (d := EmptyString) (d' := EmptyString).
  - now rewrite length_map, length_seq.
  - intros n Hn. rewrite length_map, length_seq in Hn.
    rewrite (nth_indep _ _ (nth 0 header EmptyString))
      by now rewrite length_map, length_seq.
    change (nth 0 header EmptyString)
      with ((fun j => nth j header EmptyString) 0).
    rewrite map_nth, seq_nth by exact Hn. reflexivity.
Qed.

Lemma map_filter_comm {A B : Type} (f : A -> B) (p : B -> bool) (xs : list A) :
  map f (filter (fun x => p (f x)) xs) = filter p (map f xs).
Proof.
  induction xs as [|x r IH]; [reflexivity|]. cbn [filter map].
  destruct (p (f x)); cbn [map]; now rewrite IH.
Qed.

Lemma make_row_keys (header cols : list string) :
  map fst (make_row header cols)
  = rev (filter (fun k => negb (k =? "__proto__")%string) header).
Proof.
  rewrite make_row_rev, map_rev, map_map. cbn [fst]. f_equal.
  rewrite (map_filter_comm (fun j => nth j header EmptyString)
             (fun k => negb (k =? "__proto__")%string)).
  now rewrite nth_over_seq.
Qed.

Lemma row_get_unique (row : Row) (k : string) (v : option string) :
  NoDup (map fst row) -> In (k, v) row -> row_get row k = v.
Proof.
  induction row as [|[k' v'] r IH]; [contradiction|].
  cbn [map fst row_get]. intros Hnd [Hin|Hin].
  - injection Hin as -> ->. now rewrite String.eqb_refl.
  - inversion Hnd as [|? ? Hnot Hr]; subst.
    destruct (String.eqb_spec k' k) as [->|_].
    + exfalso. apply Hnot. change k with (fst (k, v)). now apply in_map.
    + now apply IH.
Qed.

Lemma row_get_absent (row : Row) (k : string) :
  ~ In k (map fst row) -> row_get row k = None.
Proof.
  induction row as [|[k' v'] r IH]; [reflexivity|].
  cbn [map fst row_get In]. intros Hn.
  destruct (String.eqb_spec k' k) as [->|_]; [exfalso; auto|].
  apply IH. auto.
Qed.

Lemma parse_fold (header : list string) (data : list string) (acc : list Row) :
  fold_left
    (fun rows line =>
       let cols := csv_cells line in
       if (length cols <? Nat.min 5 (length header))%nat then rows
       else rows ++ [make_row header cols])
    data acc
  = acc ++ map (make_row header)
             (filter (fun cols => negb (length cols <? Nat.min 5 (length header))%nat)
                     (map csv_cells data)).
Proof.
  revert acc. induction data as [|line r IH]; intros acc.
  - cbn. now rewrite app_nil_r.
  - cbn [fold_left map filter]. rewrite IH.
    destruct (length (csv_cells line) <? Nat.min 5 (length header))%nat; cbn [negb].
    + reflexivity.
    + cbn [map]. now rewrite <- app_assoc.
Qed.

End ParseFacts.

Section ParseClaims.
Import Text Csv.

(** X21: in a parsed row, the value under the j-th header name is the j-th
    cell of the line, as long as no header name occurs twice and the name
    is not [__proto__]. *)
Theorem parsed_row_lookup (header cols : list string) (j : nat) :
  NoDup header -> j < length header ->
  nth j header EmptyString <> "__proto__"%string ->
  row_get (make_row header cols) (nth j header EmptyString) = nth_error cols j.
Proof.
  intros Hnd Hj Hp. apply row_get_unique.
  - rewrite make_row_keys. now apply NoDup_rev, NoDup_filter.
  - rewrite make_row_rev. apply in_rev. rewrite rev_involutive.
    apply in_map_iff. exists j. split; [reflexivity|].
    apply filter_In. split; [apply in_seq; lia|].
    apply negb_true_iff. now apply String.eqb_neq.
Qed.

(** X22: a key that is neither a header name nor inherited is missing from
    every parsed row. *)
Theorem parsed_row_unknown_key (header cols : list string) (k : string) :
  ~ In k header -> inherited k = false ->
  row_get (make_row header cols) k = None.
Proof.
  intros Hn _. apply row_get_absent. rewrite make_row_keys.
  intros Hin. apply Hn. apply in_rev in Hin. apply filter_In in Hin. tauto.
Qed.

(** X20: parsing a table written out as CSV gives its rows back, one object
    per row. *)
Theorem parse_rendered_table (header : list string) (rows : list (list string)) :
  2 <= length header ->
  forallb clean_cell header = true ->
  Forall (fun row => length row = length header
                     /\ forallb clean_cell row = true) rows ->
  parseCsvLoose (render header rows) = map (make_row header) rows.
Proof.
  intros Hlen Hh Hrows. unfold parseCsvLoose, render.
  assert (Hlines : Forall (fun l => no_line_feed l = true /\ ends_with_cr l = false
                                    /\ nonempty l = true)
                          (map join_cells (header :: rows))).
  { apply Forall_map. constructor.
    - destruct (TextFacts.join_cells_line _ Hh). auto using TextFacts.join_cells_nonempty.
    - eapply Forall_impl; [|exact Hrows]. intros row [Hl Hc].
      destruct (TextFacts.join_cells_line _ Hc).
      split; [|split]; auto. apply TextFacts.join_cells_nonempty. lia. }
  rewrite (TextFacts.csv_lines_join Hlines). cbn [map].
  assert (Hne : forall cells : list string, 2 <= length cells -> cells <> []).
  { intros [|? ?]; cbn; [lia|discriminate]. }
  rewrite (TextFacts.csv_cells_join (Hne _ Hlen) Hh).
  rewrite parse_fold. cbn [app]. f_equal. clear Hlines.
  induction Hrows as [|row r [Hl Hc] _ IH]; [reflexivity|].
  cbn [map filter].
  assert (Hr2 : 2 <= length row) by lia.
  rewrite (TextFacts.csv_cells_join (Hne _ Hr2) Hc).
  assert (Hk : (length row <? Nat.min 5 (length header))%nat = false).
  { apply Nat.ltb_ge. lia. }
  rewrite Hk. cbn [negb]. f_equal. exact IH.
Qed.

End ParseClaims.

Lemma string_compare_trans (a b c : string) :
  String.compare a b <> Gt -> String.compare b c <> Gt -> String.compare a c <> Gt.
Proof.
  revert b c. induction a as [|x a IH]; intros [|y b] [|z c]; cbn [String.compare];
    try congruence.
  unfold Ascii.compare.
  destruct (N.compare_spec (N_of_ascii x) (N_of_ascii y)) as [E1|L1|G1];
    destruct (N.compare_spec (N_of_ascii y) (N_of_ascii z)) as [E2|L2|G2];
    try congruence.
  - rewrite E1, E2, N.compare_refl. apply IH.
  - intros _ _. rewrite E1. apply N.compare_lt_iff in L2. rewrite L2. discriminate.
  - intros _ _. rewrite <- E2. apply N.compare_lt_iff in L1. rewrite L1. discriminate.
  - intros _ _. assert (L : (N_of_ascii x < N_of_ascii z)%N) by lia.
    apply N.compare_lt_iff in L. rewrite L. discriminate.
Qed.

Lemma string_compare_consistent : consistent_comparator String.compare.
Proof.
  split.
  - intros a b. apply String.compare_antisym.
  - exact string_compare_trans.
Qed.

Section GoldRowFacts.
Variable localeCompare : string -> string -> comparison.

Local Abbreviation sortE := (sort_by_expiry localeCompare).
Local Abbreviation expiry_le :=
  (fun a b : Row => localeCompare (expiry_or_last a) (expiry_or_last b) <> Gt).

Lemma insert_by_expiry_perm (x : Row) (xs : list Row) :
  Permutation (x :: xs) (insert_by_expiry localeCompare x xs).
Proof.
  induction xs as [|y r IH]; [reflexivity|]. cbn [insert_by_expiry].
  destruct (localeCompare (expiry_or_last x) (expiry_or_last y)); try reflexivity.
  rewrite perm_swap. now constructor.
Qed.

Lemma sort_by_expiry_perm (xs : list Row) : Permutation xs (sortE xs).
Proof.
  induction xs as [|x r IH]; [reflexivity|]. cbn [sort_by_expiry].
  rewrite <- insert_by_expiry_perm. now constructor.
Qed.

Lemma extractGoldRow_is_head (rows : list Row) :
  extractGoldRow localeCompare rows = hd_error (sortE (filter names_gold rows)).
Proof.
  unfold extractGoldRow. destruct (filter names_gold rows) as [|x r]; [reflexivity|].
  now destruct (sortE (x :: r)).
Qed.

Lemma filter_nil_iff (rows : list Row) :
  filter names_gold rows = [] <-> Forall (fun r => names_gold r = false) rows.
Proof.
  induction rows as [|x r IH]; cbn [filter].
  - split; [constructor|reflexivity].
  - destruct (names_gold x) eqn:E.
    + split; [discriminate|]. intros Hf. inversion Hf; congruence.
    + rewrite IH. split; [now constructor|]. intros Hf. now inversion Hf.
Qed.

Lemma extractGoldRow_none (rows : list Row) :
  extractGoldRow localeCompare rows = None
  <-> Forall (fun r => names_gold r = false) rows.
Proof.
  rewrite <- filter_nil_iff, extractGoldRow_is_head.
  pose proof (sort_by_expiry_perm (filter names_gold rows)) as P.
  split.
  - intros Hn. destruct (sortE (filter names_gold rows)) as [|m t]; [|discriminate].
    now apply Permutation_sym, Permutation_nil in P.
  - intros ->. reflexivity.
Qed.

Lemma head_is_least (xs : list Row) (m : Row) :
  consistent_comparator localeCompare ->
  hd_error (sortE xs) = Some m -> Forall (expiry_le m) xs.
Proof.
  intros [Anti Trans]. revert m.
  induction xs as [|x r IH]; intros m; [constructor|].
  cbn [sort_by_expiry]. destruct (sortE r) as [|y t] eqn:S.
  - pose proof (sort_by_expiry_perm r) as P. rewrite S in P.
    apply Permutation_sym, Permutation_nil in P. subst r.
    cbn. intros [= <-]. constructor; [|constructor].
    pose proof (Anti (expiry_or_last x) (expiry_or_last x)) as E.
    destruct (localeCompare (expiry_or_last x) (expiry_or_last x)); cbn in E; congruence.
  - specialize (IH y eq_refl). cbn [insert_by_expiry].
    destruct (localeCompare (expiry_or_last x) (expiry_or_last y)) eqn:E;
      cbn [hd_error]; intros [= <-].
    + constructor.
      * pose proof (Anti (expiry_or_last x) (expiry_or_last x)) as E'.
        destruct (localeCompare (expiry_or_last x) (expiry_or_last x)); cbn in E'; congruence.
      * eapply Forall_impl; [|exact IH]. intros z Hz.
        apply Trans with (expiry_or_last y); [rewrite E; discriminate|exact Hz].
    + constructor.
      * pose proof (Anti (expiry_or_last x) (expiry_or_last x)) as E'.
        destruct (localeCompare (expiry_or_last x) (expiry_or_last x)); cbn in E'; congruence.
      * eapply Forall_impl; [|exact IH]. intros z Hz.
        apply Trans with (expiry_or_last y); [rewrite E; discriminate|exact Hz].
    + constructor; [|exact IH].
      rewrite (Anti (expiry_or_last x) (expiry_or_last y)), E. discriminate.
Qed.

(** X23: [extractGoldRow] answers [null] exactly when no row names gold, and
    otherwise one of the rows that name gold. *)
Theorem gold_row_found (rows : list Row) :
  (extractGoldRow localeCompare rows = None
   <-> Forall (fun r => names_gold r = false) rows)
  /\ (forall r, extractGoldRow localeCompare rows = Some r ->
                In r rows /\ names_gold r = true).
Proof.
  rewrite extractGoldRow_is_head.
  pose proof (sort_by_expiry_perm (filter names_gold rows)) as P.
  destruct (sortE (filter names_gold rows)) as [|m t] eqn:S; cbn [hd_error].
  - apply Permutation_sym, Permutation_nil in P. split.
    + split; [intros _; now apply filter_nil_iff|reflexivity].
    + discriminate.
  - split.
    + split; [discriminate|]. intros Hf. apply filter_nil_iff in Hf.
      rewrite Hf in P. now apply Permutation_nil in P.
    + intros r [= <-]. apply filter_In.
      apply (Permutation_in _ (Permutation_sym P)). now left.
Qed.

(** X24: with a consistent comparator the row returned has the nearest
    expiry: no gold row of the input sorts before it. *)
Theorem gold_row_nearest_expiry (rows : list Row) (r r' : Row) :
  consistent_comparator localeCompare ->
  extractGoldRow localeCompare rows = Some r ->
  In r' rows -> names_gold r' = true ->
  localeCompare (expiry_or_last r) (expiry_or_last r') <> Gt.
Proof.
  intros Hc He Hin Hg. rewrite extractGoldRow_is_head in He.
  pose proof (head_is_least _ Hc He) as Hl. rewrite Forall_forall in Hl.
  apply Hl. apply filter_In. now split.
Qed.

End GoldRowFacts.

Section TextRunFacts.
Context {N : Type} `{JsNumber N}.
Variable Number_ : string -> N.
Variable isFinite : N -> bool.
Variable localeCompare : string -> string -> comparison.

Local Abbreviation on_text := (run_on_text Number_ isFinite localeCompare).

Lemma toNumber_finite (x : option string) (n : N) :
  toNumber Number_ isFinite x = Some n -> isFinite n = true.
Proof.
  unfold toNumber. destruct x as [s|]; [|discriminate].
  destruct (isFinite (Number_ (Text.remove_commas (Text.trim s)))) eqn:F;
    [|discriminate].
  now intros [= <-].
Qed.

(** X26: the prices a run appends to the log are finite numbers. *)
Theorem stored_prices_are_finite
        (run : Run N) (st st' : Store N) (mem : list (Bar N)) (text : string) :
  main localeCompare (on_text run text) st = Saved st' mem ->
  has_date (run_date run) (history_file st) = false ->
  exists rec bc,
    history_file st' = history_file st ++ [rec]
    /\ c rec = Some bc
    /\ isFinite (o rec) = true /\ isFinite (h rec) = true
    /\ isFinite (l rec) = true /\ isFinite bc = true.
Proof.
  intros Hm Hd.
  destruct (saved_shape _ _ _ Hm) as (stm & latest & -> & _ & _ & Hc).
  change (run_date (on_text run text)) with (run_date run) in Hc.
  destruct Hc as [[_ D] | (bar & bo & bh & bl & bc & -> & _ & G & Eo & Eh & El & Ec)];
    [congruence|].
  cbn [run_on_text gold_bar] in G. unfold gold_bar_of_text in G.
  destruct (extractGoldRow localeCompare (parseCsvLoose text)) as [row|];
    [|discriminate].
  injection G as <-. cbn [mapRowToBar p_o p_h p_l p_c] in Eo, Eh, El, Ec.
  eexists. exists bc. cbn [saveLatest appendHistory history_file].
  split; [reflexivity|]. cbn [record c o h l].
  split; [reflexivity|].
  repeat split; eapply toNumber_finite; eassumption.
Qed.

End TextRunFacts.

Section ScriptClaims.
Context {N : Type} `{JsNumber N}.
Variable Number_ : string -> N.
Variable isFinite : N -> bool.
Variable localeCompare : string -> string -> comparison.

Local Abbreviation script := (update_mcx Number_ isFinite localeCompare).
Local Abbreviation bar_of := (gold_bar_of_text Number_ isFinite localeCompare).
Local Abbreviation named :=
  (fun run : Run N => truthy_str (arg_file run) || truthy_str (arg_url run)).

Lemma sorted_has_last (history : list (Bar N)) :
  history <> [] ->
  exists latest,
    nth_error (sort_by_date localeCompare history)
              (length (sort_by_date localeCompare history) - 1) = Some latest.
Proof.
  intros Hne.
  destruct (nth_error (sort_by_date localeCompare history)
              (length (sort_by_date localeCompare history) - 1)) as [x|] eqn:E;
    [now exists x|].
  apply nth_error_None in E. rewrite sort_by_date_length in E.
  destruct history; [congruence|cbn in E; lia].
Qed.

Lemma has_date_nonempty (d : string) (history : list (Bar N)) :
  has_date d history = true -> history <> [].
Proof. now destruct history. Qed.

(** With a host on which nothing throws, the script ends as [main] does
    on the bar read from the text. *)
Lemma script_is_main (host : Host) (run : Run N) (st : Store N) (text : string) :
  input_text host run = Some text ->
  log_parses host = true -> append_ok host = true -> save_ok host = true ->
  match main localeCompare (run_on_text Number_ isFinite localeCompare run text) st with
  | Exit code =>
      ending (script host run st) = Exited code /\ store_after (script host run st) = st
  | Saved st' _ =>
      ending (script host run st) = Completed /\ store_after (script host run st) = st'
  | TypeError => ending (script host run st) = Uncaught
  end.
Proof.
  intros Ht Hl Ha Hs. unfold main, update_mcx, loadHistory.
  cbn [run_on_text arg_file arg_url gold_bar]. unfold gold_bar_of_text.
  change (run_date (run_on_text Number_ isFinite localeCompare run text))
    with (run_date run).
  rewrite Ht, Hl, Ha, Hs.
  destruct (negb (truthy_str (arg_file run)) && negb (truthy_str (arg_url run)));
    [cbn; auto|].
  destruct (extractGoldRow localeCompare (parseCsvLoose text)) as [row|];
    [|cbn; auto].
  destruct (p_o (mapRowToBar Number_ isFinite row)) as [bo|]; [|cbn; auto].
  destruct (p_h (mapRowToBar Number_ isFinite row)) as [bh|]; [|cbn; auto].
  destruct (p_l (mapRowToBar Number_ isFinite row)) as [bl|]; [|cbn; auto].
  destruct (p_c (mapRowToBar Number_ isFinite row)) as [bc|]; [|cbn; auto].
  cbv zeta. cbn [negb andb].
  rewrite andb_false_r.
  assert (Hrec : forall bar a b c d,
             record (run_on_text Number_ isFinite localeCompare run text) bar a b c d
             = record run bar a b c d) by reflexivity.
  rewrite !Hrec. cbn [run_on_text now_latest].
  destruct (has_date (run_date run) (history_file st)); cbn [negb];
    unfold score_and_save;
    match goal with
    | |- context [nth_error ?l ?i] => destruct (nth_error l i)
    end; cbn; auto.
Qed.

(** X14: how the script ends, read off its inputs.  It exits with 1 when
    no input is named, with 2 when the input was read and holds no GOLD
    row, with 3 when the GOLD row lacks a numeric open, high, low or
    close; in each case the log and the snapshot are untouched.  It
    completes, with a snapshot saved, when the bar is numeric and nothing
    throws.  It ends on an uncaught exception exactly when the download
    or the read throws, or, for a numeric bar, when reading the log, the
    append of a new date or the save throws; reading the latest record
    never fails. *)
Theorem main_outcome (host : Host) (run : Run N) (st : Store N) :
  match ending (script host run st) with
  | Exited code =>
      store_after (script host run st) = st
      /\ ((code = 1 /\ named run = false /\ raw_copy (script host run st) = None)
          \/ (code = 2 /\ named run = true
              /\ exists text, input_text host run = Some text /\ bar_of text = None)
          \/ (code = 3 /\ named run = true
              /\ exists text bar,
                   input_text host run = Some text /\ bar_of text = Some bar
                   /\ numeric_ohlc bar = false))
  | Completed =>
      named run = true
      /\ (exists text bar,
            input_text host run = Some text /\ bar_of text = Some bar
            /\ numeric_ohlc bar = true)
      /\ log_parses host = true /\ save_ok host = true
      /\ (has_date (run_date run) (history_file st) = true \/ append_ok host = true)
      /\ exists s, latest_file (store_after (script host run st)) = Some s
  | Uncaught =>
      named run = true
      /\ (input_text host run = None
          \/ (exists text bar,
                input_text host run = Some text /\ bar_of text = Some bar
                /\ numeric_ohlc bar = true)
             /\ (log_parses host = false
                 \/ (has_date (run_date run) (history_file st) = false
                     /\ append_ok host = false)
                 \/ save_ok host = false))
  end.
Proof.
  unfold update_mcx, gold_bar_of_text, loadHistory.
  destruct (truthy_str (arg_file run) || truthy_str (arg_url run)) eqn:Hn.
  2:{ apply orb_false_iff in Hn. destruct Hn as [-> ->]. cbn. auto. }
  assert (G : negb (truthy_str (arg_file run)) && negb (truthy_str (arg_url run))
              = false).
  { apply orb_true_iff in Hn. destruct Hn as [-> | ->]; cbn;
      [reflexivity|apply andb_false_r]. }
  rewrite G. clear G.
  destruct (input_text host run) as [text|] eqn:Ht; [|cbn; auto].
  destruct (extractGoldRow localeCompare (parseCsvLoose text)) as [row|] eqn:Hg.
  2:{ cbn. split; [reflexivity|]. right. left. split; [reflexivity|].
      split; [reflexivity|]. exists text. now rewrite Hg. }
  set (bar := mapRowToBar Number_ isFinite row).
  destruct (numeric_ohlc bar) eqn:Hb.
  2:{ assert (E : match p_o bar, p_h bar, p_l bar, p_c bar with
                  | Some _, Some _, Some _, Some _ => true
                  | _, _, _, _ => false
                  end = false) by exact Hb.
      destruct (p_o bar), (p_h bar), (p_l bar), (p_c bar); try discriminate E;
        cbn; (split; [reflexivity|]); right; right;
        (split; [reflexivity|]); (split; [reflexivity|]);
        exists text, bar; rewrite Hg; auto. }
  assert (Hbar : exists text0 bar0,
             Some text = Some text0
             /\ match extractGoldRow localeCompare (parseCsvLoose text0) with
                | Some goldRow => Some (mapRowToBar Number_ isFinite goldRow)
                | None => None
                end = Some bar0
             /\ numeric_ohlc bar0 = true).
  { exists text, bar. rewrite Hg. auto. }
  unfold numeric_ohlc in Hb.
  destruct (p_o bar) as [bo|]; [|discriminate Hb].
  destruct (p_h bar) as [bh|]; [|discriminate Hb].
  destruct (p_l bar) as [bl|]; [|discriminate Hb].
  destruct (p_c bar) as [bc|]; [|discriminate Hb].
  cbv zeta.
  destruct (log_parses host); cbn [negb]; [|cbn; auto 6].
  destruct (has_date (run_date run) (history_file st)) eqn:Hd; cbn [negb andb].
  - destruct (sorted_has_last (@has_date_nonempty _ _ Hd)) as (latest & ->).
    destruct (save_ok host); cbn; [|auto 8].
    split; [reflexivity|]. split; [exact Hbar|]. repeat split; eauto.
  - destruct (append_ok host); cbn [negb]; [|cbn; auto 8].
    assert (Hne : history_file st ++ [record run bar bo bh bl bc] <> [])
      by (now destruct (history_file st)).
    destruct (sorted_has_last Hne) as (latest & ->).
    destruct (save_ok host); cbn; [|auto 8].
    split; [reflexivity|]. split; [exact Hbar|]. repeat split; eauto.
Qed.

(** X25: a bhavcopy that was read and in which no parsed row names gold
    makes the script exit with code 2; the log and the snapshot are left
    as they were, and with [--url] the downloaded copy has already been
    written. *)
Theorem no_gold_row_exits_2 (host : Host) (run : Run N) (st : Store N)
        (text : string) :
  truthy_str (arg_file run) || truthy_str (arg_url run) = true ->
  input_text host run = Some text ->
  Forall (fun r => names_gold r = false) (parseCsvLoose text) ->
  ending (script host run st) = Exited 2
  /\ store_after (script host run st) = st
  /\ raw_copy (script host run st)
     = (if truthy_str (arg_url run) then Some text else None).
Proof.
  intros Hin Ht Hg. unfold update_mcx.
  apply orb_true_iff in Hin.
  assert (E : negb (truthy_str (arg_file run)) && negb (truthy_str (arg_url run))
              = false).
  { destruct Hin as [-> | ->]; cbn; [reflexivity|apply andb_false_r]. }
  rewrite E, Ht.
  apply extractGoldRow_none with (localeCompare := localeCompare) in Hg.
  rewrite Hg. repeat split.
Qed.

End ScriptClaims.

(** ** Examples                                                      *)

Section ExtraWitnesses.
Local Open Scope float_scope.

Lemma zscore_trailing_window_witness :
  [2; 4] <> [] /\ zscore ([1] ++ [2; 4]) 2 = zscore [2; 4] 2.
Proof.
  assert (Hw : [2; 4] <> ([] : list float)) by discriminate.
  split; [exact Hw|]. exact (@zscore_trailing_window float _ [1] [2; 4] Hw).
Defined.

Lemma ema_append_witness :
  ema [1; 2; 3] 2 = Some 2.5
  /\ ema ([1; 2; 3] ++ [4]) 2
     = Some (ofZ 4 * (ofZ 2 / (ofNat 2 + ofZ 1))
             + 2.5 * (ofZ 1 - ofZ 2 / (ofNat 2 + ofZ 1)))%js.
Proof.
  assert (He : ema [1; 2; 3] 2 = Some 2.5) by (vm_compute; reflexivity).
  split; [exact He|].
  exact (@ema_append float _ [1; 2; 3] 2%nat 2.5 (ofZ 4) He).
Defined.

Lemma atr14_append_witness :
  atr14 Sample.ranges = Some 5
  /\ atr14 (Sample.ranges ++ [mkHLC 30 20 (Some 25)])
     = Some ((5 * ofZ 13
              + trueRange (c_ (last Sample.ranges (mkHLC 30 20 (Some 25)))) 30 20)
             / ofZ 14)%js.
Proof.
  assert (Ha : atr14 Sample.ranges = Some 5) by (vm_compute; reflexivity).
  split; [exact Ha|].
  exact (@atr14_append float _ Binary64Facts.lawful Sample.ranges
           (mkHLC 30 20 (Some 25)) 5 Ha).
Defined.

Lemma double_clamp_in_range_witness :
  le_num 0 1 = true
  /\ is_num (clamp 5 0 1) = true
  /\ in_range 0 1 (clamp 5 0 1) = true.
Proof.
  assert (Hab : le_num 0 1 = true) by (vm_compute; reflexivity).
  assert (Hn : is_num (clamp 5 0 1) = true) by (vm_compute; reflexivity).
  split; [exact Hab|]. split; [exact Hn|].
  exact (@double_clamp_in_range 5 0 1 Hab Hn).
Defined.

Lemma score_within_bounds_witness :
  is_num (score (computeScore Sample.rising)) = true
  /\ in_range (- ofZ 1)%js (ofZ 1) (score (computeScore Sample.rising)) = true.
Proof.
  assert (Hn : is_num (score (computeScore Sample.rising)) = true)
    by (vm_compute; reflexivity).
  split; [exact Hn|].
  destruct (@score_within_bounds float _ Binary64Order.ordered Sample.rising)
    as [Hs _].
  exact (Hs Hn).
Defined.

Lemma nan_score_holds_witness :
  is_num (score (computeScore (flat_history 60 1e308 None None))) = false
  /\ verdict (computeScore (flat_history 60 1e308 None None)) = HOLD.
Proof.
  assert (Hn : is_num (score (computeScore (flat_history 60 1e308 None None))) = false)
    by (vm_compute; reflexivity).
  split; [exact Hn|].
  exact (@nan_score_holds float _ Binary64Order.ordered _ Hn).
Defined.

Lemma no_volume_keys_no_participation_witness :
  (60 <= length (flat_history 60 2000%float None None))%nat
  /\ Forall (fun x => vol x = None /\ oi x = None) (flat_history 60 2000%float None None)
  /\ exists b,
       signals (computeScore (flat_history 60 2000%float None None)) = Bundle b
       /\ participation b = ofZ 0.
Proof.
  assert (L : (60 <= length (flat_history 60 2000%float None None))%nat)
    by (vm_compute; lia).
  assert (K : Forall (fun x : Bar float => vol x = None /\ oi x = None)
                (flat_history 60 2000%float None None)).
  { apply Forall_forall. intros x Hx. unfold flat_history in Hx.
    apply in_map_iff in Hx. destruct Hx as (i & <- & _). split; reflexivity. }
  split; [exact L|]. split; [exact K|].
  destruct (@no_volume_keys_no_participation float _ Binary64Order.ordered _ L K)
    as (b & Hb & _ & _ & Hp).
  exists b. split; [exact Hb|exact Hp].
Defined.

End ExtraWitnesses.

Section PipelineWitnesses.
Local Open Scope float_scope.

Lemma history_append_only_witness :
  exists st' mem rec,
    main String.compare Sample.run_noon SampleCsv.one_day_store = Saved st' mem
    /\ history_file st' = history_file SampleCsv.one_day_store ++ [rec]
    /\ date rec = run_date Sample.run_noon.
Proof.
  destruct (main String.compare Sample.run_noon SampleCsv.one_day_store)
    as [code|st' mem|] eqn:Hm; [vm_compute in Hm; discriminate| |
                                vm_compute in Hm; discriminate].
  destruct (@history_append_only float _ String.compare _ _ _ _ Hm)
    as [[_ D] | (rec & Hh & Hd & _)]; [vm_compute in D; discriminate|].
  exists st', mem, rec. split; [reflexivity|]. split; [exact Hh|exact Hd].
Defined.

Lemma dates_stay_unique_witness :
  exists st' mem,
    main String.compare Sample.run_noon SampleCsv.one_day_store = Saved st' mem
    /\ NoDup (map date (history_file SampleCsv.one_day_store))
    /\ NoDup (map date (history_file st')).
Proof.
  assert (Hn : NoDup (map date (history_file SampleCsv.one_day_store)))
    by (repeat constructor; intros []).
  destruct (main String.compare Sample.run_noon SampleCsv.one_day_store)
    as [code|st' mem|] eqn:Hm; [vm_compute in Hm; discriminate| |
                                vm_compute in Hm; discriminate].
  exists st', mem. split; [reflexivity|]. split; [exact Hn|].
  exact (@dates_stay_unique float _ String.compare _ _ _ _ Hm Hn).
Defined.

Lemma snapshot_is_newest_witness :
  consistent_comparator String.compare
  /\ exists st' mem s,
       main String.compare Sample.run_noon SampleCsv.one_day_store = Saved st' mem
       /\ latest_file st' = Some s
       /\ Forall (fun b => String.compare (date b) (s_date s) <> Gt)
                 (history_file st').
Proof.
  split; [exact string_compare_consistent|].
  destruct (main String.compare Sample.run_noon SampleCsv.one_day_store)
    as [code|st' mem|] eqn:Hm; [vm_compute in Hm; discriminate| |
                                vm_compute in Hm; discriminate].
  destruct (@snapshot_is_newest float _ String.compare string_compare_consistent
              _ _ _ _ Hm) as (_ & _ & s & Hs & Hall).
  exists st', mem, s. split; [reflexivity|]. split; [exact Hs|exact Hall].
Defined.

Lemma newest_bar_is_shown_witness :
  consistent_comparator String.compare
  /\ Forall (fun b => String.compare (date b) (run_date Sample.run_noon) = Lt)
            (history_file SampleCsv.one_day_store)
  /\ exists st' mem s,
       main String.compare Sample.run_noon SampleCsv.one_day_store = Saved st' mem
       /\ latest_file st' = Some s
       /\ s_date s = run_date Sample.run_noon
       /\ s_ohlc s = (2000, 2010, 1990, Some 2005).
Proof.
  assert (Hold : Forall (fun b : Bar float =>
                           String.compare (date b) (run_date Sample.run_noon) = Lt)
                   (history_file SampleCsv.one_day_store))
    by (repeat constructor).
  split; [exact string_compare_consistent|]. split; [exact Hold|].
  destruct (main String.compare Sample.run_noon SampleCsv.one_day_store)
    as [code|st' mem|] eqn:Hm; [vm_compute in Hm; discriminate| |
                                vm_compute in Hm; discriminate].
  destruct (@newest_bar_is_shown float _ String.compare string_compare_consistent
              _ _ _ _ Hm Hold)
    as (s & bar & bo & bh & bl & bc & Hs & Hg & Ho & Hh & Hl & Hc & Hd & Hp).
  exists st', mem, s. split; [reflexivity|]. split; [exact Hs|]. split; [exact Hd|].
  injection Hg as <-. cbn in Ho, Hh, Hl, Hc.
  injection Ho as <-. injection Hh as <-. injection Hl as <-. injection Hc as <-.
  exact Hp.
Defined.

Lemma written_log_has_no_participation_witness :
  Forall lacks_volume_keys (history_file SampleCsv.one_day_store)
  /\ exists st' mem,
       main String.compare Sample.run_noon SampleCsv.one_day_store = Saved st' mem
       /\ Forall lacks_volume_keys (history_file st').
Proof.
  assert (Hk : Forall (@lacks_volume_keys float) (history_file SampleCsv.one_day_store))
    by (repeat constructor).
  split; [exact Hk|].
  destruct (main String.compare Sample.run_noon SampleCsv.one_day_store)
    as [code|st' mem|] eqn:Hm; [vm_compute in Hm; discriminate| |
                                vm_compute in Hm; discriminate].
  exists st', mem. split; [reflexivity|].
  exact (proj1 (@written_log_has_no_participation float _ Binary64Order.ordered
                  String.compare _ _ _ _ Hm Hk)).
Defined.

Lemma parsed_row_lookup_witness :
  NoDup SampleCsv.header
  /\ row_get (make_row SampleCsv.header SampleCsv.gold_april) "CLOSE"
     = Some "2005"%string.
Proof.
  assert (Hn : NoDup SampleCsv.header).
  { repeat constructor; cbn; intros Hin;
      repeat (destruct Hin as [Hin|Hin]; [discriminate|]); exact Hin. }
  assert (Hj : (5 < length SampleCsv.header)%nat) by (vm_compute; lia).
  assert (Hp : nth 5 SampleCsv.header EmptyString <> "__proto__"%string)
    by discriminate.
  split; [exact Hn|].
  exact (@parsed_row_lookup SampleCsv.header SampleCsv.gold_april 5 Hn Hj Hp).
Defined.

Lemma parsed_row_unknown_key_witness :
  ~ In "VOLUME"%string SampleCsv.header
  /\ row_get (make_row SampleCsv.header SampleCsv.gold_april) "VOLUME" = None.
Proof.
  assert (Hn : ~ In "VOLUME"%string SampleCsv.header).
  { cbn. intros Hin. repeat (destruct Hin as [Hin|Hin]; [discriminate|]). exact Hin. }
  split; [exact Hn|].
  exact (@parsed_row_unknown_key SampleCsv.header SampleCsv.gold_april _ Hn
           eq_refl).
Defined.

Lemma parse_rendered_table_witness :
  parseCsvLoose SampleCsv.text
  = map (make_row SampleCsv.header)
        [SampleCsv.silver; SampleCsv.gold_april; SampleCsv.gold_mini].
Proof.
  apply parse_rendered_table.
  - vm_compute. lia.
  - reflexivity.
  - repeat constructor.
Defined.

Lemma gold_row_nearest_expiry_witness :
  consistent_comparator String.compare
  /\ extractGoldRow String.compare (parseCsvLoose SampleCsv.text)
     = Some (make_row SampleCsv.header SampleCsv.gold_mini)
  /\ String.compare "2026-02-05" "2026-04-03" <> Gt.
Proof.
  assert (He : extractGoldRow String.compare (parseCsvLoose SampleCsv.text)
               = Some (make_row SampleCsv.header SampleCsv.gold_mini))
    by (vm_compute; reflexivity).
  split; [exact string_compare_consistent|]. split; [exact He|].
  apply (@gold_row_nearest_expiry String.compare (parseCsvLoose SampleCsv.text)
           (make_row SampleCsv.header SampleCsv.gold_mini)
           (make_row SampleCsv.header SampleCsv.gold_april)
           string_compare_consistent He).
  - vm_compute. right. left. reflexivity.
  - vm_compute. reflexivity.
Defined.

Lemma main_outcome_witness :
  let p := update_mcx SampleCsv.number_of_digits SampleCsv.is_finite String.compare
                      SampleCsv.unreadable Sample.run_noon SampleCsv.one_day_store in
  ending p = Uncaught
  /\ store_after p = SampleCsv.one_day_store
  /\ truthy_str (arg_file Sample.run_noon) || truthy_str (arg_url Sample.run_noon)
     = true
  /\ input_text SampleCsv.unreadable Sample.run_noon = None.
Proof.
  pose proof (@main_outcome float _ SampleCsv.number_of_digits SampleCsv.is_finite
                String.compare SampleCsv.unreadable Sample.run_noon
                SampleCsv.one_day_store) as M.
  cbv zeta.
  assert (E : ending (update_mcx SampleCsv.number_of_digits SampleCsv.is_finite
                        String.compare SampleCsv.unreadable Sample.run_noon
                        SampleCsv.one_day_store) = Uncaught) by reflexivity.
  rewrite E in M. destruct M as [Hn _].
  split; [exact E|]. split; [reflexivity|]. split; [exact Hn|reflexivity].
Defined.

Lemma no_gold_row_exits_2_witness :
  Forall (fun r => names_gold r = false) (parseCsvLoose SampleCsv.text_without_gold)
  /\ (let p := update_mcx SampleCsv.number_of_digits SampleCsv.is_finite
                          String.compare
                          (SampleCsv.serving SampleCsv.text_without_gold)
                          SampleCsv.run_url SampleCsv.one_day_store in
      ending p = Exited 2
      /\ store_after p = SampleCsv.one_day_store
      /\ raw_copy p = Some SampleCsv.text_without_gold).
Proof.
  assert (Hg : Forall (fun r => names_gold r = false)
                 (parseCsvLoose SampleCsv.text_without_gold))
    by (vm_compute; repeat constructor).
  split; [exact Hg|].
  apply (@no_gold_row_exits_2 float _ SampleCsv.number_of_digits SampleCsv.is_finite
           String.compare (SampleCsv.serving SampleCsv.text_without_gold)
           SampleCsv.run_url SampleCsv.one_day_store
           SampleCsv.text_without_gold); [reflexivity|reflexivity|exact Hg].
Defined.

Lemma stored_prices_are_finite_witness :
  exists st' mem rec,
    main String.compare (SampleCsv.run_on SampleCsv.text) Sample.empty_store
    = Saved st' mem
    /\ history_file st' = [rec]
    /\ (o rec, h rec, l rec, c rec) = (1995, 2004, 1985, Some 2001)
    /\ SampleCsv.is_finite (o rec) = true.
Proof.
  destruct (main String.compare (SampleCsv.run_on SampleCsv.text) Sample.empty_store)
    as [code|st' mem|] eqn:Hm; [vm_compute in Hm; discriminate| |
                                vm_compute in Hm; discriminate].
  assert (Hd : has_date (run_date Sample.run_noon) (history_file Sample.empty_store)
               = false) by reflexivity.
  destruct (@stored_prices_are_finite float _ SampleCsv.number_of_digits
              SampleCsv.is_finite String.compare Sample.run_noon
              Sample.empty_store st' mem SampleCsv.text Hm Hd)
    as (rec & bc & Hh & Hc & Ho & _).
  exists st', mem, rec. split; [reflexivity|]. split; [exact Hh|].
  split; [|exact Ho].
  vm_compute in Hm. injection Hm as Hst _. rewrite <- Hst in Hh.
  cbn [history_file app] in Hh. injection Hh as <-. reflexivity.
Defined.

End PipelineWitnesses.
